(** * homeassistant-entity-renamer: the program and its specification

    A shallow embedding of [homeassistant-entity-renamer.py] and the
    properties its specification states about it.  The first part gives the
    model: Python's strings and the [csv] module as far as the program uses
    them, the world the program runs in, and the program itself, function
    by function.  The second part proves the properties. *)

From Stdlib Require Import Ascii.
From stdpp Require Import base list strings gmap pretty sorting.

(** * Strings

    A Python [str] is modelled as a [string]: a finite sequence of
    characters, here restricted to the code points 0-255.  [len] is
    [String.length], concatenation is [+:+], and comparison is by code
    point. *)

Module Str.

(** [c in s] for a one-character [c]. *)
Fixpoint contains (c : ascii) (s : string) : bool :=
  match s with
  | EmptyString => false
  | String d s' => if decide (d = c) then true else contains c s'
  end.

(** [s.split(c)[0]]: the characters before the first [c] (all of [s] when
    [c] does not occur). *)
Fixpoint before (c : ascii) (s : string) : string :=
  match s with
  | EmptyString => EmptyString
  | String d s' => if decide (d = c) then EmptyString else String d (before c s')
  end.

(** The characters after the first [c], when [c] occurs. *)
Fixpoint after (c : ascii) (s : string) : option string :=
  match s with
  | EmptyString => None
  | String d s' => if decide (d = c) then Some s' else after c s'
  end.

(** [s.split(c, maxsplit=1)]: one piece when [c] does not occur, else the
    two pieces around the first [c]. *)
Definition split1 (c : ascii) (s : string) : list string :=
  match after c s with
  | None => [s]
  | Some r => [before c s; r]
  end.

(** [n] spaces. *)
Fixpoint spaces (n : nat) : string :=
  match n with
  | O => EmptyString
  | S n' => String " "%char (spaces n')
  end.

(** [f"{s:>{n}}"]: [s] right-aligned in a field of width [n], the fill
    (spaces) on the left; a longer [s] is left as it is. *)
Definition rjust (n : nat) (s : string) : string :=
  spaces (n - String.length s) +:+ s.

End Str.

(** * Presenter: column alignment (source lines 25-58) *)

Definition alignment_char : ascii := "."%char.

(** Lines 42-47, with [max_length] the closure variable. *)
Definition align_string (max_length : nat) (s : string) : string :=
  match Str.split1 alignment_char s with
  | [p; r] => Str.rjust max_length p +:+ "." +:+ r
  | _ => s
  end.

(** Line 33, [[row[column] for row in table]]; [None] is the [IndexError]
    of a row that has no such cell. *)
Definition column_data (column : nat) (table : list (list string))
  : option (list string) :=
  mapM (λ row : list string, row !! column) table.

(** Lines 50-56: the table with [f] applied to the cells of one column. *)
Definition replace_column (column : nat) (f : string → string)
    (table : list (list string)) : list (list string) :=
  (λ row : list string,
     imap (λ i value, if decide (i = column) then f value else value) row)
  <$> table.

(** One turn of the loop of line 31. *)
Definition align_column (column : nat) (table : list (list string))
  : option (list (list string)) :=
  data ← column_data column table;
  let strings_to_align := List.filter (Str.contains alignment_char) data in
  if decide (length strings_to_align = 0) then Some table
  else
    let max_length :=
      max_list ((λ s, String.length (Str.before alignment_char s))
                  <$> strings_to_align) in
    Some (replace_column column (align_string max_length) table).

Fixpoint align_columns (columns : list nat) (table : list (list string))
  : option (list (list string)) :=
  match columns with
  | [] => Some table
  | column :: rest => align_column column table ≫= align_columns rest
  end.

Definition align_strings (table : list (list string))
  : option (list (list string)) :=
  match table with
  | [] => Some table
  | row0 :: _ => align_columns (seq 0 (length row0)) table
  end.

(** Vocabulary for stating what alignment does to a column. *)

(** The cells of column [j], top to bottom (rows without one skipped). *)
Definition cells (j : nat) (table : list (list string)) : list string :=
  omap (λ row : list string, row !! j) table.

(** Length of the part of a cell before its first marker. *)
Definition prefix_len (s : string) : nat :=
  String.length (Str.before alignment_char s).

(** The cells of column [j] that contain the marker. *)
Definition marked (j : nat) (table : list (list string)) : list string :=
  List.filter (Str.contains alignment_char) (cells j table).

(** The longest prefix among the marked cells of column [j]. *)
Definition marker_column (j : nat) (table : list (list string)) : nat :=
  max_list (prefix_len <$> marked j table).

(** What one cell of column [j] becomes, computed from the whole column. *)
Definition align_cell (table : list (list string)) (j : nat) (s : string)
  : string :=
  if decide (length (marked j table) = 0) then s
  else align_string (marker_column j table) s.

Definition align_all (columns : list nat) (table0 table : list (list string))
  : list (list string) :=
  (λ row : list string,
     imap (λ j value,
             if decide (j ∈ columns) then align_cell table0 j value else value)
          row)
  <$> table.

(** * More of Python's [str] *)

Module Py.

Definition LF : ascii := ascii_of_nat 10.
Definition CR : ascii := ascii_of_nat 13.
Definition nl : string := String LF "".

(** Truth value of a [str]: only the empty one is false. *)
Definition nonempty (s : string) : bool :=
  match s with
  | EmptyString => false
  | String _ _ => true
  end.

(** Truth value of an optional argument ([None] or a [str]), as tested by
    [if x:] and [not x]. *)
Definition truthy (x : option string) : bool :=
  match x with
  | None => false
  | Some s => nonempty s
  end.

(** [str.lower] on one character of the range 0-255: A-Z and the
    accented capitals 192-222 (215, the multiplication sign, apart) move
    up by 32. *)
Definition lower_char (c : ascii) : ascii :=
  let n := nat_of_ascii c in
  if (65 <=? n) && (n <=? 90) then ascii_of_nat (n + 32)
  else if (192 <=? n) && (n <=? 222) && negb (n =? 215) then ascii_of_nat (n + 32)
  else c.

Fixpoint lower (s : string) : string :=
  match s with
  | EmptyString => EmptyString
  | String c s' => String (lower_char c) (lower s')
  end.

(** [sep.join(parts)]. *)
Fixpoint join (sep : string) (parts : list string) : string :=
  match parts with
  | [] => ""
  | [p] => p
  | p :: rest => p +:+ sep +:+ join sep rest
  end.

(** [sorted(l, key=key)] for a [str]-valued key.  Python's sort is stable
    and compares [str] by code point; among the rearrangements of [l] only
    one is ordered and stable, and this insertion sort computes it: an
    element is put in front of the first one whose key is not smaller. *)
Fixpoint insert_by {A} (key : A → string) (x : A) (l : list A) : list A :=
  match l with
  | [] => [x]
  | y :: l' =>
      if String.ltb (key y) (key x) then y :: insert_by key x l'
      else x :: y :: l'
  end.

Definition sorted {A} (key : A → string) (l : list A) : list A :=
  foldr (insert_by key) [] l.

(** The order [sorted] establishes: keys compared as [str], by code
    point, a proper prefix before its extensions. *)
Definition key_le {A} (key : A → string) (a b : A) : Prop :=
  String.leb (key a) (key b) = true.

End Py.

(** * The [csv] module, excel dialect

    Delimiter: comma; quote character: the double quote (code 34), written
    twice inside a quoted field; no escape character; line terminator
    CR LF; minimal quoting; not strict. *)

Module Csv.

Definition delimiter : ascii := ","%char.
Definition quotechar : ascii := ascii_of_nat 34.

(** ** Writer *)

(** The characters that force a field into quotes. *)
Definition special (c : ascii) : bool :=
  bool_decide (c = delimiter) || bool_decide (c = quotechar)
  || bool_decide (c = Py.CR) || bool_decide (c = Py.LF).

Fixpoint has_special (s : string) : bool :=
  match s with
  | EmptyString => false
  | String c s' => special c || has_special s'
  end.

(** The field with every quote character doubled. *)
Fixpoint double_quotes (s : string) : string :=
  match s with
  | EmptyString => EmptyString
  | String c s' =>
      if decide (c = quotechar) then String c (String c (double_quotes s'))
      else String c (double_quotes s')
  end.

Definition write_field (s : string) : string :=
  if has_special s
  then String quotechar (double_quotes s +:+ String quotechar "")
  else s.

(** [writer.writerow(row)]: the text of one record.  A record that would
    come out empty (a single empty field) is written as a pair of quotes. *)
Definition writerow (row : list string) : string :=
  match row with
  | [EmptyString] => String quotechar (String quotechar "")
  | _ => Py.join (String delimiter "") (write_field <$> row)
  end +:+ String Py.CR (String Py.LF "").

(** [writer.writerows(table)]. *)
Fixpoint writerows (table : list (list string)) : string :=
  match table with
  | [] => ""
  | row :: rest => writerow row +:+ writerows rest
  end.

(** ** Text files read without [newline=""]

    Universal newlines: CR LF and a lone CR both arrive as LF.
    [pending_cr] says that the character before was a CR. *)
Fixpoint universal_newlines (pending_cr : bool) (s : string) : string :=
  match s with
  | EmptyString => EmptyString
  | String c s' =>
      if decide (c = Py.CR) then String Py.LF (universal_newlines true s')
      else if decide (c = Py.LF) then
        if pending_cr then universal_newlines false s'
        else String Py.LF (universal_newlines false s')
      else String c (universal_newlines false s')
  end.

(** Put a character in front of the first line. *)
Definition cons_line (c : ascii) (lines : list string) : list string :=
  match lines with
  | [] => [String c ""]
  | l :: rest => String c l :: rest
  end.

(** Iterating over a text file: the lines, each with its LF, the last one
    possibly without. *)
Fixpoint readlines (s : string) : list string :=
  match s with
  | EmptyString => []
  | String c s' =>
      if decide (c = Py.LF) then Py.nl :: readlines s'
      else cons_line c (readlines s')
  end.

(** ** Reader *)

Inductive parser_state :=
| START_RECORD | START_FIELD | IN_FIELD | IN_QUOTED_FIELD
| QUOTE_IN_QUOTED_FIELD | EAT_CRNL.

Global Instance parser_state_eq_dec : EqDecision parser_state.
Proof. solve_decision. Defined.

Record reader := Reader {
  state : parser_state;
  fields : list string;   (* fields of the record read so far *)
  field : string;         (* characters of the field being read *)
}.

(** [parse_reset]. *)
Definition reset : reader := Reader START_RECORD [] "".

(** [parse_save_field]. *)
Definition save_field (r : reader) (st : parser_state) : reader :=
  Reader st (fields r ++ [field r]) "".

(** [field_size_limit()]: 128 * 1024 unless the program changes it, which
    it does not. *)
Definition field_limit : Z := 131072.

(** [parse_add_char]; [None] is the [_csv.Error] of a field that has
    reached the limit. *)
Definition add_char (r : reader) (c : ascii) (st : parser_state)
  : option reader :=
  if decide (field_limit ≤ Z.of_nat (String.length (field r)))%Z then None
  else Some (Reader st (fields r) (field r +:+ String c "")).

Definition goto (r : reader) (st : parser_state) : reader :=
  Reader st (fields r) (field r).

Definition is_newline (c : ascii) : bool :=
  bool_decide (c = Py.LF) || bool_decide (c = Py.CR).

(** [parse_process_char]; the character [None] is the end-of-line mark
    that the reader feeds after every line, and the result [None] is
    [_csv.Error]. *)
Definition start_field (r : reader) (c : option ascii) : option reader :=
  match c with
  | None => Some (save_field r START_RECORD)
  | Some c =>
      if is_newline c then Some (save_field r EAT_CRNL)
      else if decide (c = quotechar) then Some (goto r IN_QUOTED_FIELD)
      else if decide (c = delimiter) then Some (save_field r START_FIELD)
      else add_char r c IN_FIELD
  end.

Definition process_char (r : reader) (c : option ascii) : option reader :=
  match state r with
  | START_RECORD =>
      match c with
      | None => Some r
      | Some c' =>
          if is_newline c' then Some (goto r EAT_CRNL)
          else start_field r c
      end
  | START_FIELD => start_field r c
  | IN_FIELD =>
      match c with
      | None => Some (save_field r START_RECORD)
      | Some c =>
          if is_newline c then Some (save_field r EAT_CRNL)
          else if decide (c = delimiter) then Some (save_field r START_FIELD)
          else add_char r c IN_FIELD
      end
  | IN_QUOTED_FIELD =>
      match c with
      | None => Some r
      | Some c =>
          if decide (c = quotechar) then Some (goto r QUOTE_IN_QUOTED_FIELD)
          else add_char r c IN_QUOTED_FIELD
      end
  | QUOTE_IN_QUOTED_FIELD =>
      match c with
      | None => Some (save_field r START_RECORD)
      | Some c =>
          if decide (c = quotechar) then add_char r c IN_QUOTED_FIELD
          else if decide (c = delimiter) then Some (save_field r START_FIELD)
          else if is_newline c then Some (save_field r EAT_CRNL)
          else add_char r c IN_FIELD
      end
  | EAT_CRNL =>
      match c with
      | None => Some (goto r START_RECORD)
      | Some c => if is_newline c then Some r else None
      end
  end.

(** One line: its characters, then the end-of-line mark. *)
Fixpoint process_line (r : reader) (line : string) : option reader :=
  match line with
  | EmptyString => process_char r None
  | String c line' => process_char r (Some c) ≫= λ r', process_line r' line'
  end.

(** The records the reader yields until the lines run out.  A record is
    complete when a line ends in state [START_RECORD]; otherwise the next
    line continues it.  When the lines end inside a record, what was read
    of it is yielded if a field is open. *)
Fixpoint read_records (r : reader) (lines : list string)
  : option (list (list string)) :=
  match lines with
  | [] =>
      if Py.nonempty (field r) || bool_decide (state r = IN_QUOTED_FIELD)
      then Some [fields (save_field r START_RECORD)]
      else Some []
  | line :: rest =>
      r' ← process_line r line;
      if decide (state r' = START_RECORD)
      then (fields r' ::.) <$> read_records reset rest
      else read_records r' rest
  end.

(** [csv.reader(file)], run to the end. *)
Definition reader_rows (lines : list string) : option (list (list string)) :=
  read_records reset lines.

(** ** DictReader *)

(** The dict made of one row: header cells paired with row cells, a later
    pair replacing an earlier one; header cells beyond the row get [None].
    (The cells beyond the header go under the key [None], which the
    program never looks up; that entry is left out.) *)
Definition dict_row (fieldnames row : list string)
  : gmap string (option string) :=
  let d := foldl (λ d kv, <[kv.1 := Some kv.2]> d) ∅ (zip fieldnames row) in
  foldl (λ d key, <[key := None]> d) d (drop (length row) fieldnames).

(** [DictReader(file)], run to the end: the first record is the header,
    empty records after it are skipped. *)
Definition DictReader (lines : list string)
  : option (list (gmap string (option string))) :=
  records ← reader_rows lines;
  match records with
  | [] => Some []
  | fieldnames :: rows =>
      Some (dict_row fieldnames <$> List.filter (λ row, negb (bool_decide (row = []))) rows)
  end.

(** ** Vocabulary for following the reader through a text *)

(** No carriage return in the string. *)
Definition cr_free (s : string) : Prop := Str.contains Py.CR s = false.

(** A cell the reader takes: not longer than the field limit. *)
Definition fits (s : string) : Prop :=
  (Z.of_nat (String.length s) ≤ field_limit)%Z.

(** The lines still to be read when the reader is inside a line. *)
Definition pending (lines : list string) : list string :=
  match lines with
  | [] => [EmptyString]
  | _ => lines
  end.

(** The reader in state [r], inside a line, with the text [s] to come. *)
Definition feed (r : reader) (s : string) : option (list (list string)) :=
  read_records r (pending (readlines s)).

(** What follows the end of a line. *)
Definition next_line (r : reader) (s : string) : option (list (list string)) :=
  if decide (state r = START_RECORD)
  then (fields r ::.) <$> read_records reset (readlines s)
  else read_records r (readlines s).

(** The state a field leaves the reader in. *)
Definition after_field (st : parser_state) (f : string) : parser_state :=
  if has_special f then QUOTE_IN_QUOTED_FIELD
  else if Py.nonempty f then IN_FIELD else st.

(** The text of a record as it reaches the reader: LF for CR LF. *)
Definition unix_row (row : list string) : string :=
  match row with
  | [EmptyString] => String quotechar (String quotechar "")
  | _ => Py.join (String delimiter "") (write_field <$> row)
  end +:+ Py.nl.

Fixpoint unix_rows (table : list (list string)) : string :=
  match table with
  | [] => ""
  | row :: rest => unix_row row +:+ unix_rows rest
  end.

End Csv.

(** * Values exchanged as JSON *)

#[local] Set Warnings "-register-all".

Inductive json :=
| JNull
| JBool (b : bool)
| JNum (n : Z)
| JStr (s : string)
| JArr (items : list json)
| JObj (members : list (string * json)).

(** A Python [dict] with [str] keys, in insertion order. *)
Definition dict := list (string * json).

(** [d.get(key)]: [None] when the key is absent. *)
Fixpoint dict_get (d : dict) (key : string) : option json :=
  match d with
  | [] => None
  | (k, v) :: d' => if decide (k = key) then Some v else dict_get d' key
  end.

(** Truth value of a decoded JSON value. *)
Definition json_truthy (v : json) : bool :=
  match v with
  | JNull => false
  | JBool b => b
  | JNum n => negb (bool_decide (n = 0%Z))
  | JStr s => Py.nonempty s
  | JArr items => negb (bool_decide (items = []))
  | JObj members => negb (bool_decide (length members = 0))
  end.

(** * What the program takes from outside its source

    The [config] module and the library functions the program calls. *)

Class Externals := {
  (** [config.HOST], [config.ACCESS_TOKEN], [config.TLS] *)
  HOST : string;
  ACCESS_TOKEN : string;
  TLS : bool;
  (** [re.search(pattern, s)] as a truth value and [re.sub(pattern, repl, s)];
      [None] is [re.error]. *)
  re_search : string → string → option bool;
  re_sub : string → string → string → option string;
  (** [tabulate.tabulate(table, headers="firstrow", tablefmt="github")] *)
  tabulate : list (list string) → string;
  (** [json.dumps] of a dict, [json.loads] ([None]: not JSON), and the text
      an f-string gives for a value. *)
  json_dumps : dict → string;
  json_loads : string → option json;
  py_str : json → string;
  (** What [parser.print_help()] prints. *)
  help_text : string;
}.

(** * The world the program runs in *)

(** One entity of the listing: [entity["entity_id"]] and
    [entity["attributes"].get("friendly_name")]. *)
Record entity := Entity {
  entity_id : string;
  friendly_name : option string;
}.

(** The answer to the GET: status, body, and the body decoded
    ([json.loads(response.text)], a list of entities). *)
Record response := Response {
  status_code : Z;
  text : string;
  entities : list entity;
}.

Inductive event :=
| Print (line : string)
| HttpGet (url : string)
| FileRead (name : string)
| FileWrite (name content : string)
| Input (prompt : string)
| WsConnect (url : string)
| WsRecv (frame : string)
| WsSend (frame : string)
| WsClose.

Global Instance event_eq_dec : EqDecision event.
Proof. solve_decision. Defined.

Inductive exn :=
| EOFError           (* [input()] with nothing left to read *)
| FileNotFoundError  (* [open] of a file that does not exist *)
| KeyError           (* [row["Current Entity ID"]] without that column *)
| TypeError          (* ["." in None], [re.sub(None, ...)] *)
| IndexError
| CsvError
| ReError
| JSONDecodeError
| AttributeError     (* [.get] on a value that is not a dict *)
| RequestError       (* the GET cannot be made *)
| ConnectionRefused
| ConnectionClosed.

Record world := World {
  stdin : list string;                (* the lines still to be typed *)
  files : gmap string string;         (* the text files, by name *)
  rest_api : option response;         (* the hub's answer to the GET *)
  websocket : option (list string);   (* the frames the hub will send
                                         before it closes the connection *)
  trace : list event;                 (* what has happened, oldest first *)
}.

Definition log (e : event) (w : world) : world :=
  World (stdin w) (files w) (rest_api w) (websocket w) (trace w ++ [e]).

Inductive result (A : Type) :=
| Ok (a : A)
| Raise (e : exn).
Global Arguments Ok {A} a.
Global Arguments Raise {A} e.

(** A computation: runs in a world, returns or raises, leaves a world. *)
Definition M (A : Type) : Type := world → result A * world.

Global Instance M_ret : MRet M := λ A a w, (Ok a, w).
Global Instance M_bind : MBind M := λ A B f m w,
  match m w with
  | (Ok a, w') => f a w'
  | (Raise e, w') => (Raise e, w')
  end.

Global Instance M_fmap : FMap M := λ A B f m, m ≫= λ a, mret (f a).

Definition raise {A} (e : exn) : M A := λ w, (Raise e, w).
Definition emit (e : event) : M unit := λ w, (Ok (), log e w).

(** [None] raises [e]. *)
Definition lift {A} (e : exn) (x : option A) : M A :=
  match x with
  | Some a => mret a
  | None => raise e
  end.

Definition print (line : string) : M unit := emit (Print line).

(** [input(prompt)]. *)
Definition input (prompt : string) : M string := λ w,
  match stdin w with
  | [] => (Raise EOFError, log (Input prompt) w)
  | answer :: rest =>
      (Ok answer,
       log (Input prompt)
           (World rest (files w) (rest_api w) (websocket w) (trace w)))
  end.

(** [requests.get(url, headers=headers)]. *)
Definition requests_get (url : string) : M response := λ w,
  match rest_api w with
  | None => (Raise RequestError, log (HttpGet url) w)
  | Some r => (Ok r, log (HttpGet url) w)
  end.

(** The whole of a file opened with [open(name, mode="r")]. *)
Definition read_text (name : string) : M string := λ w,
  match files w !! name with
  | None => (Raise FileNotFoundError, w)
  | Some content => (Ok (Csv.universal_newlines false content), log (FileRead name) w)
  end.

(** A file opened with [open(name, mode="w", newline="")], written and
    closed: what was there is gone. *)
Definition write_text (name content : string) : M unit := λ w,
  (Ok (),
   log (FileWrite name content)
       (World (stdin w) (<[name := content]> (files w)) (rest_api w)
              (websocket w) (trace w))).

(** [websocket.recv()]. *)
Definition ws_recv : M string := λ w,
  match websocket w with
  | Some (frame :: rest) =>
      (Ok frame,
       log (WsRecv frame)
           (World (stdin w) (files w) (rest_api w) (Some rest) (trace w)))
  | _ => (Raise ConnectionClosed, w)
  end.

(** [websocket.send(frame)].  The hub closes the connection after the last
    of its frames, and a send on a closed connection raises
    [ConnectionClosed] like a receive does.  (The close is taken to have
    reached the program by then; when it is still on its way the frame
    leaves and it is the receive after it that raises.) *)
Definition ws_send (frame : string) : M unit := λ w,
  match websocket w with
  | Some (_ :: _) => (Ok (), log (WsSend frame) w)
  | _ => (Raise ConnectionClosed, w)
  end.

(** [async with websockets.connect(url) as websocket: body]: the connection
    is closed when the body returns and when it raises. *)
Definition with_connection {A} (url : string) (body : M A) : M A := λ w,
  match websocket w with
  | None => (Raise ConnectionRefused, log (WsConnect url) w)
  | Some _ =>
      let (r, w') := body (log (WsConnect url) w) in
      (r, log WsClose w')
  end.

(** * The program *)

Section Program.

Context `{Externals}.

(** Line 16. *)
Definition TLS_S : string := if TLS then "s" else "".

(** A row of the plan: friendly name, entity id, new entity id. *)
Definition plan_row : Type := string * string * string.

Definition row_cells (row : plan_row) : list string :=
  let '(friendly_name, entity_id, new_entity_id) := row in
  [friendly_name; entity_id; new_entity_id].

Definition header : list string :=
  ["Friendly Name"; "Current Entity ID"; "New Entity ID"].

(** ** Lister (lines 61-96) *)

(** Lines 81-85: the pairs whose id the pattern is found in; the first
    [re.error] ends the run. *)
Fixpoint filter_search (regex : string) (entity_data : list (string * string))
  : option (list (string * string)) :=
  match entity_data with
  | [] => Some []
  | (friendly_name, entity_id) :: rest =>
      found ← re_search regex entity_id;
      kept ← filter_search regex rest;
      Some (if found : bool then (friendly_name, entity_id) :: kept else kept)
  end.

Definition list_entities (regex : option string) : M (list (string * string)) :=
  let api_endpoint := "http" +:+ TLS_S +:+ "://" +:+ HOST +:+ "/api/states" in
  response ← requests_get api_endpoint;
  if decide (status_code response = 200%Z) then
    let entity_data :=
      (λ entity, (default "" (friendly_name entity), entity_id entity))
      <$> entities response in
    entity_data ←
      (if Py.truthy regex
       then lift ReError (filter_search (default "" regex) entity_data)
       else mret entity_data);
    mret (Py.sorted fst entity_data)
  else
    print ("Error: " +:+ pretty (status_code response) +:+ " - "
           +:+ text response);;
    mret [].

(** ** Exporting (lines 206-210) *)

Definition write_to_csv (table : list (list string)) (filename : string)
  : M unit :=
  write_text filename (Csv.writerows table);;
  print ("(Table written to " +:+ filename +:+ ")").

(** ** Applier (lines 155-203) *)

(** Lines 175-183. *)
Definition entity_registry_update_msg (index : Z) (row : plan_row) : dict :=
  let '(friendly_name, entity_id, new_entity_id) := row in
  [("id", JNum index);
   ("type", JStr "config/entity_registry/update");
   ("entity_id", JStr entity_id)]
  ++ (if Py.nonempty new_entity_id
      then [("new_entity_id", JStr new_entity_id)] else [])
  ++ (if Py.nonempty friendly_name
      then [("name", JStr friendly_name)] else []).

(** Lines 193-198. *)
Definition success_msg (row : plan_row) : string :=
  let '(friendly_name, entity_id, new_entity_id) := row in
  "Entity '" +:+ entity_id +:+ "'"
  +:+ (if Py.nonempty new_entity_id
       then " renamed to '" +:+ new_entity_id +:+ "'" else "")
  +:+ (if Py.nonempty friendly_name
       then " with friendly name '" +:+ friendly_name +:+ "'" else "")
  +:+ " successfully!".

(** [value.get(key, default)] for a decoded value: only a dict has [get]. *)
Definition get_or (value : json) (key : string) (dflt : json) : M json :=
  match value with
  | JObj members => mret (default dflt (dict_get members key))
  | _ => raise AttributeError
  end.

(** The text an f-string gives for a decoded value: a [str] as it is. *)
Definition fstr (v : json) : string :=
  match v with
  | JStr s => s
  | _ => py_str v
  end.

(** Lines 191-203: what is printed about one answer. *)
Definition report (row : plan_row) (ws_update_result : string) : M unit :=
  update_result ← lift JSONDecodeError (json_loads ws_update_result);
  success ← get_or update_result "success" JNull;
  if json_truthy success then print (success_msg row)
  else
    error ← get_or update_result "error" (JObj []);
    message ← get_or error "message" (JStr "Unknown error");
    print ("Failed to update entity '" +:+ row.1.2 +:+ "': " +:+ fstr message).

(** Lines 172-203, the loop; [index] is the number of the first row. *)
Fixpoint update_rows (index : Z) (rename_data : list plan_row) : M unit :=
  match rename_data with
  | [] => mret ()
  | row :: rest =>
      let msg := entity_registry_update_msg index row in
      ws_send (json_dumps msg);;
      print (">>> " +:+ py_str (JObj msg));;
      ws_update_result ← ws_recv;
      print ("<<< " +:+ ws_update_result);;
      report row ws_update_result;;
      update_rows (index + 1) rest
  end.

Definition rename_entities (rename_data : list plan_row) : M unit :=
  let ha_url := "ws" +:+ TLS_S +:+ "://" +:+ HOST +:+ "/api/websocket" in
  let auth_msg :=
    json_dumps [("type", JStr "auth"); ("access_token", JStr ACCESS_TOKEN)] in
  with_connection ha_url (
    auth_request ← ws_recv;
    print ("<<< " +:+ auth_request);;
    ws_send auth_msg;;
    print (">>> " +:+ auth_msg);;
    auth_result ← ws_recv;
    print ("<<< " +:+ auth_result);;
    update_rows 1 rename_data).

(** ** Planner and Presenter (lines 99-152) *)

(** A cell of a row read from a file: a [str], or [None] where the row was
    shorter than the header. *)
Definition cell : Type := option string.

(** Lines 108-115, one turn of the loop; [None] is the [KeyError] of
    [row["Current Entity ID"]]. *)
Definition read_row (row : gmap string cell) : option (cell * cell * cell) :=
  entity_id ← row !! "Current Entity ID";
  let friendly_name := default (Some "") (row !! "Friendly Name") in
  let new_entity_id := default (Some "") (row !! "New Entity ID") in
  Some (friendly_name, entity_id, new_entity_id).

(** Lines 106-115 on the text of the file.  The reader is run to the end
    before the rows are looked at; nothing else happens in between. *)
Definition read_rows (content : string)
  : result (list (cell * cell * cell)) :=
  match Csv.DictReader (Csv.readlines content) with
  | None => Raise CsvError
  | Some rows =>
      match mapM read_row rows with
      | None => Raise KeyError
      | Some rename_data => Ok rename_data
      end
  end.

(** A row all of whose cells are [str]. *)
Definition str_row (row : cell * cell * cell) : option plan_row :=
  let '(friendly_name, entity_id, new_entity_id) := row in
  f ← friendly_name; e ← entity_id; n ← new_entity_id; Some (f, e, n).

(** Lines 103-119.  [None] is the early return of line 119.  A row with a
    [None] cell makes [align_strings] raise [TypeError] at line 36
    ([alignment_char in s]) before anything is printed; that is raised
    here. *)
Definition load_plan (input_filename : string) : M (option (list plan_row)) :=
  content ← read_text input_filename;
  rename_data ← (λ w, (read_rows content, w));
  if decide (rename_data = []) then
    print "No data found in the input file.";; mret None
  else
    Some <$> lift TypeError (mapM str_row rename_data).

(** Lines 122-130. *)
Fixpoint substitute (search_regex : option string) (replace_regex : string)
    (entity_data : list (string * string)) : option (list plan_row) :=
  match entity_data with
  | [] => Some []
  | (friendly_name, entity_id) :: rest =>
      new_entity_id ←
        (pattern ← search_regex; re_sub pattern replace_regex entity_id);
      rows ← substitute search_regex replace_regex rest;
      Some ((friendly_name, entity_id, new_entity_id) :: rows)
  end.

Definition plan_rows (entity_data : list (string * string))
    (search_regex replace_regex : option string) : M (list plan_row) :=
  if Py.truthy replace_regex then
    lift (match search_regex with Some _ => ReError | None => TypeError end)
         (substitute search_regex (default "" replace_regex) entity_data)
  else
    mret ((λ '(friendly_name, entity_id), (friendly_name, entity_id, ""))
          <$> entity_data).

Definition prompt : string :=
  Py.nl +:+ "Do you want to proceed with renaming the entities? (y/N): ".

(** Lines 132-152. *)
Definition present (rename_data : list plan_row)
    (replace_regex output_file input_filename : option string) : M unit :=
  aligned ← lift IndexError (align_strings (row_cells <$> rename_data));
  print (tabulate (header :: aligned));;
  let table := header :: (row_cells <$> rename_data) in
  (if Py.truthy output_file
   then write_to_csv table (default "" output_file) else mret ());;
  if negb (Py.truthy replace_regex) && negb (Py.truthy input_filename)
  then mret ()
  else
    answer ← input prompt;
    if negb (bool_decide (Py.lower answer ∈ ["y"; "yes"])) then
      print "Renaming process aborted."
    else
      rename_entities rename_data.

(** Lines 102-130: the plan, or [None] at the early return. *)
Definition build_plan (entity_data : list (string * string))
    (search_regex replace_regex input_filename : option string)
  : M (option (list plan_row)) :=
  if Py.truthy input_filename
  then load_plan (default "" input_filename)
  else Some <$> plan_rows entity_data search_regex replace_regex.

Definition process_entities (entity_data : list (string * string))
    (search_regex replace_regex output_file input_filename : option string)
  : M unit :=
  rename_data ←
    build_plan entity_data search_regex replace_regex input_filename;
  match rename_data with
  | None => mret ()
  | Some rename_data =>
      present rename_data replace_regex output_file input_filename
  end.

(** ** Command line (lines 213-255) *)

(** What [parser.parse_args()] returns. *)
Record args := Args {
  input_file : option string;
  search_regex : option string;
  replace_regex : option string;
  output_file : option string;
}.

Definition main (args : args) : M unit :=
  if Py.truthy (search_regex args) && Py.truthy (input_file args) then
    print "Error: --search and --input-file cannot be used together."
  else if Py.truthy (replace_regex args) && negb (Py.truthy (search_regex args))
  then
    print "Error: --replace requires --search."
  else if Py.truthy (search_regex args) then
    entity_data ← list_entities (search_regex args);
    if negb (bool_decide (entity_data = [])) then
      process_entities entity_data (search_regex args) (replace_regex args)
                       (output_file args) None
    else
      print "No entities found matching the search regex."
  else if Py.truthy (input_file args) then
    process_entities [] None None (output_file args) (input_file args)
  else
    print help_text.

End Program.

(** * A concrete set of externals

    Enough of the libraries to run the program on examples: patterns
    without metacharacters, replacements without backslashes, a plain table
    layout, and the two answers the hub gives to an update. *)

Module Sample.

(** [s.startswith(p)]. *)
Fixpoint starts_with (p s : string) : bool :=
  match p, s with
  | EmptyString, _ => true
  | String a p', String b s' => bool_decide (a = b) && starts_with p' s'
  | String _ _, EmptyString => false
  end.

(** [re.search] of a literal pattern: does it occur in [s]? *)
Fixpoint search (p s : string) : bool :=
  starts_with p s ||
  match s with
  | EmptyString => false
  | String _ s' => search p s'
  end.

(** [re.sub] of a non-empty literal pattern: the occurrences, found from
    left to right without overlap, are replaced.  [skip] counts the
    characters of a replaced occurrence still to be passed over. *)
Fixpoint sub_from (p repl : string) (skip : nat) (s : string) : string :=
  match s with
  | EmptyString => EmptyString
  | String c s' =>
      match skip with
      | S k => sub_from p repl k s'
      | O =>
          if starts_with p s
          then repl +:+ sub_from p repl (String.length p - 1) s'
          else String c (sub_from p repl 0 s')
      end
  end.

(** [re.sub] of the empty pattern: it matches before every character and
    at the end. *)
Fixpoint sub_empty (repl s : string) : string :=
  match s with
  | EmptyString => repl
  | String c s' => repl +:+ String c (sub_empty repl s')
  end.

Definition sub (p repl s : string) : string :=
  if Py.nonempty p then sub_from p repl 0 s else sub_empty repl s.

Definition quote : string := String (ascii_of_nat 34) "".

Definition show (v : json) : string :=
  match v with
  | JNull => "null"
  | JBool b => if b then "true" else "false"
  | JNum n => pretty n
  | JStr s => quote +:+ s +:+ quote
  | JArr _ => "[...]"
  | JObj _ => "{...}"
  end.

Definition show_dict (d : dict) : string :=
  "{" +:+ Py.join ", " ((λ kv, quote +:+ kv.1 +:+ quote +:+ ": " +:+ show kv.2) <$> d)
  +:+ "}".

Definition accepted : string := show_dict [("success", JBool true)].
Definition rejected : string := show_dict [("success", JBool false)].

Definition loads (s : string) : option json :=
  if decide (s = accepted) then Some (JObj [("success", JBool true)])
  else if decide (s = rejected) then
    Some (JObj [("success", JBool false);
                ("error", JObj [("message", JStr "Entity not found")])])
  else None.

Definition externals : Externals := {|
  HOST := "hub.local:8123";
  ACCESS_TOKEN := "token";
  TLS := false;
  re_search p s := Some (search p s);
  re_sub p repl s := Some (sub p repl s);
  tabulate table := Py.join Py.nl (Py.join " | " <$> table);
  json_dumps := show_dict;
  json_loads := loads;
  py_str v := match v with JObj d => show_dict d | _ => show v end;
  help_text := "usage: homeassistant-entity-renamer.py [-h] [--input-file INPUT_FILE] [--search SEARCH_REGEX] [--replace REPLACE_REGEX] [--output-file OUTPUT_FILE]";
|}.

(** A hub with three entities that accepts a connection and answers
    [frames]; nothing typed yet, no files. *)
Definition hub (frames : list string) (typed : list string) : world := {|
  stdin := typed;
  files := ∅;
  rest_api := Some {|
    status_code := 200;
    text := "[...]";
    entities := [Entity "light.kitchen_old" (Some "Kitchen");
                 Entity "switch.fan" None;
                 Entity "sensor.kitchen_old_temp" (Some "Kitchen temperature")] |};
  websocket := Some frames;
  trace := [];
|}.

End Sample.

(** * Vocabulary for statements about runs *)

(** Events on the control channel. *)
Definition is_ws (e : event) : bool :=
  match e with
  | WsConnect _ | WsRecv _ | WsSend _ | WsClose => true
  | _ => false
  end.

(** Calls to the hub, on either interface. *)
Definition is_remote (e : event) : bool :=
  match e with
  | HttpGet _ => true
  | _ => is_ws e
  end.

(** Reads from standard input. *)
Definition is_input (e : event) : bool :=
  match e with
  | Input _ => true
  | _ => false
  end.

(** What a preview produces: the listing call, printed lines, the export. *)
Definition is_preview (e : event) : bool :=
  match e with
  | HttpGet _ | Print _ | FileWrite _ _ => true
  | _ => false
  end.

(** Events that neither read standard input nor touch the control channel. *)
Definition is_local (e : event) : bool := negb (is_input e) && negb (is_ws e).

(** The world with more events recorded. *)
Definition emits (new : list event) (w : world) : world :=
  World (stdin w) (files w) (rest_api w) (websocket w) (trace w ++ new).

(** A computation that, whatever it returns, only adds events satisfying
    [P], reads nothing from standard input and takes no frame. *)
Definition only {A} (P : event → bool) (m : M A) : Prop :=
  ∀ w, ∃ new,
    trace (m w).2 = trace w ++ new ∧ Forall (λ e, P e = true) new ∧
    stdin (m w).2 = stdin w ∧ websocket (m w).2 = websocket w.

(** A computation that only adds events and leaves the files alone. *)
Definition grows {A} (m : M A) : Prop :=
  ∀ w, (∃ new, trace (m w).2 = trace w ++ new) ∧ files (m w).2 = files w.

(** The answer [y] or [yes], in any case. *)
Definition affirmative (answer : string) : bool :=
  bool_decide (Py.lower answer ∈ ["y"; "yes"]).

(** The gate of line 144 lets the run through to the prompt. *)
Definition requires_confirmation (replace_regex input_filename : option string)
  : bool :=
  Py.truthy replace_regex || Py.truthy input_filename.

Section run_vocabulary.

Context `{Externals}.

(** The table of line 136 as handed to [tabulate]. *)
Definition preview (rename_data : list plan_row) : string :=
  tabulate (header :: default [] (align_strings (row_cells <$> rename_data))).

(** What [write_to_csv] puts in the file for a plan (lines 139-141). *)
Definition export_text (rename_data : list plan_row) : string :=
  Csv.writerows (header :: (row_cells <$> rename_data)).

(** The world after lines 132-141: the table printed and, with an output
    file, the export written. *)
Definition shown (rename_data : list plan_row) (output_file : option string)
    (w : world) : world :=
  if Py.truthy output_file then
    let filename := default "" output_file in
    World (stdin w)
          (<[filename := export_text rename_data]> (files w))
          (rest_api w) (websocket w)
          (trace w ++ [Print (preview rename_data);
                       FileWrite filename (export_text rename_data);
                       Print ("(Table written to " +:+ filename +:+ ")")])
  else emits [Print (preview rename_data)] w.

(** The world after the operator has typed an answer at the prompt. *)
Definition answered (w : world) : world :=
  World (tail (stdin w)) (files w) (rest_api w) (websocket w)
        (trace w ++ [Input prompt]).

(** An answer the loop of lines 188-203 can report on: it decodes to an
    object and, unless it reports success, its [error] member is an
    object or is absent.  A rejection is such an answer. *)
Definition answer_ok (answer : string) : bool :=
  match json_loads answer with
  | Some (JObj members) =>
      json_truthy (default JNull (dict_get members "success")) ||
      match dict_get members "error" with
      | None | Some (JObj _) => true
      | Some _ => false
      end
  | _ => false
  end.

(** The line printed about such an answer. *)
Definition outcome (row : plan_row) (answer : string) : string :=
  match json_loads answer with
  | Some (JObj members) =>
      if json_truthy (default JNull (dict_get members "success"))
      then success_msg row
      else
        "Failed to update entity '" +:+ row.1.2 +:+ "': " +:+
        fstr (match dict_get members "error" with
              | Some (JObj error) =>
                  default (JStr "Unknown error") (dict_get error "message")
              | _ => JStr "Unknown error"
              end)
  | _ => ""
  end.

(** Everything the loop records for rows numbered from [index] and the
    answers to them. *)
Fixpoint update_events (index : Z) (rows : list plan_row)
    (answers : list string) : list event :=
  match rows, answers with
  | row :: rows', answer :: answers' =>
      let msg := entity_registry_update_msg index row in
      [WsSend (json_dumps msg);
       Print (">>> " +:+ py_str (JObj msg));
       WsRecv answer;
       Print ("<<< " +:+ answer);
       Print (outcome row answer)]
      ++ update_events (index + 1) rows' answers'
  | _, _ => []
  end.

(** The frames of the loop alone: a request, then its answer, row by
    row. *)
Fixpoint exchange (index : Z) (rows : list plan_row) (answers : list string)
  : list event :=
  match rows, answers with
  | row :: rows', answer :: answers' =>
      WsSend (json_dumps (entity_registry_update_msg index row))
      :: WsRecv answer :: exchange (index + 1) rows' answers'
  | _, _ => []
  end.

(** Lines 157-158. *)
Definition ha_url : string :=
  "ws" +:+ TLS_S +:+ "://" +:+ HOST +:+ "/api/websocket".
Definition auth_msg : string :=
  json_dumps [("type", JStr "auth"); ("access_token", JStr ACCESS_TOKEN)].

(** What the listing gives before filtering: one pair per entity, in the
    order of the answer. *)
Definition listed (r : response) : list (string * string) :=
  (λ entity, (default "" (friendly_name entity), entity_id entity))
  <$> entities r.

(** The pairs whose identifier the pattern is found in. *)
Definition matching (pattern : string) (l : list (string * string))
  : list (string * string) :=
  List.filter (λ p, bool_decide (re_search pattern p.2 = Some true)) l.

End run_vocabulary.

(** A plan row as the loop of lines 107-115 builds it from a full row. *)
Definition as_read (row : plan_row) : cell * cell * cell :=
  let '(friendly_name, entity_id, new_entity_id) := row in
  (Some friendly_name, Some entity_id, Some new_entity_id).

(** No cell of the plan contains a carriage return. *)
Definition plan_cr_free (rename_data : list plan_row) : Prop :=
  Forall (λ row, Forall Csv.cr_free (row_cells row)) rename_data.

(** No cell of the plan is longer than the field limit of the csv reader. *)
Definition plan_fits (rename_data : list plan_row) : Prop :=
  Forall (λ row, Forall Csv.fits (row_cells row)) rename_data.

(** * Worlds for examples *)

(** A plan file with one row, an operator who types [y], and a hub that
    accepts the update. *)
Definition one_row_plan : list plan_row :=
  [("Kitchen", "light.kitchen_old", "light.kitchen_new")].

Definition hub_with_plan_file : world := {|
  stdin := ["y"];
  files := {["plan.csv" := export_text one_row_plan]};
  rest_api := None;
  websocket := Some ["hello"; "auth_ok"; Sample.accepted];
  trace := [];
|}.

(** An entity whose display name contains a carriage return. *)
Definition name_with_cr : string := "Living" +:+ String Py.CR "Room".
Definition name_with_lf : string := "Living" +:+ String Py.LF "Room".

Definition hub_with_cr : world := {|
  stdin := [];
  files := ∅;
  rest_api := Some {|
    status_code := 200;
    text := "[...]";
    entities := [Entity "light.living_room" (Some name_with_cr)] |};
  websocket := None;
  trace := [];
|}.

(** * More vocabulary for statements about runs *)

(** The listing call. *)
Definition is_http (e : event) : bool :=
  match e with
  | HttpGet _ => true
  | _ => false
  end.

(** A computation that, whatever it returns, records no event satisfying
    [P]. *)
Definition avoids {A} (P : event → bool) (m : M A) : Prop :=
  ∀ w, List.filter P (trace (m w).2) = List.filter P (trace w).

(** The first line waiting on standard input, if there is one, is not an
    affirmative answer. *)
Definition no_consent (w : world) : Prop :=
  ∀ answer rest, stdin w = answer :: rest → affirmative answer = false.

(** The plan of a search without replacement (lines 127-130). *)
Definition preview_rows (entity_data : list (string * string)) : list plan_row :=
  (λ p, (p.1, p.2, "")) <$> entity_data.

Section more_vocabulary.

Context `{Externals}.

(** Line 63. *)
Definition api_endpoint : string :=
  "http" +:+ TLS_S +:+ "://" +:+ HOST +:+ "/api/states".

(** The frames of the handshake (lines 160-169). *)
Definition handshake (greeting auth_result : string) : list event :=
  [WsConnect ha_url; WsRecv greeting; WsSend auth_msg; WsRecv auth_result].

End more_vocabulary.

(** The plan a search-and-replace run makes of the records listed. *)
Definition planned `{Externals} (pattern replacement : string)
    (entity_data : list (string * string)) : list plan_row :=
  (λ p, (p.1, p.2, default "" (re_sub pattern replacement p.2)))
  <$> entity_data.

(** The world after the Applier has gone through [rows] on a hub that
    greets, answers the authentication and then answers each request. *)
Definition applied `{Externals} (rows : list plan_row) (answers : list string)
    (greeting auth_result : string) (more : list string) (w : world) : world :=
  World (stdin w) (files w) (rest_api w) (Some more)
        (trace w ++ [WsConnect ha_url;
                     WsRecv greeting; Print ("<<< " +:+ greeting);
                     WsSend auth_msg; Print (">>> " +:+ auth_msg);
                     WsRecv auth_result; Print ("<<< " +:+ auth_result)]
                 ++ update_events 1 rows answers ++ [WsClose]).

(** The text of a table in the form [csv.writer] gives it (a cell in
    quotes exactly when it has a comma, a quote or a line end in it), with
    the line ends of the writer (CR LF) or those of Unix (LF). *)
Definition csv_text (crlf : bool) (table : list (list string)) : string :=
  if crlf then Csv.writerows table else Csv.unix_rows table.

(** A table the reader takes back as it is: no carriage return in a cell
    and no cell beyond the field limit. *)
Definition readable (table : list (list string)) : Prop :=
  Forall (Forall Csv.cr_free) table ∧ Forall (Forall Csv.fits) table.

(** A plan file with only the identifier column. *)
Definition id_column (ids : list string) : list (list string) :=
  ["Current Entity ID"] :: ((λ id, [id]) <$> ids).

(** * More worlds for examples *)

(** A hub that refuses the listing call. *)
Definition hub_unauthorized : world := {|
  stdin := [];
  files := ∅;
  rest_api := Some {|
    status_code := 401;
    text := "401: Unauthorized";
    entities := [] |};
  websocket := None;
  trace := [];
|}.

(** A machine with one file, no hub and nothing typed. *)
Definition with_file (name content : string) : world := {|
  stdin := [];
  files := {[name := content]};
  rest_api := None;
  websocket := None;
  trace := [];
|}.

(** Three rows to apply. *)
Definition three_rows : list plan_row :=
  [("Kitchen", "light.kitchen_old", "light.kitchen_new");
   ("", "switch.fan", "switch.ceiling_fan");
   ("Hall", "light.hall", "")].

(** * Proofs *)

(** * The model on small inputs *)

Example align_one_column :
  align_strings [["a.bc"]; ["abc.d"]; ["x"]]
  = Some [["  a.bc"]; ["abc.d"]; ["x"]].
Proof. reflexivity. Qed.

Example align_ragged_table : align_strings [["a.b"; "c"]; ["d"]] = None.
Proof. reflexivity. Qed.

Example sorted_by_code_point :
  Py.sorted id ["b"; "a"; "B"; ""; "ab"; "a"] = [""; "B"; "a"; "a"; "ab"; "b"].
Proof. reflexivity. Qed.

Example sorted_keeps_equal_keys_in_order :
  Py.sorted fst [("b", 1); ("a", 2); ("b", 3); ("a", 4)]
  = [("a", 2); ("a", 4); ("b", 1); ("b", 3)].
Proof. reflexivity. Qed.

Example lower_answers :
  Py.lower "YES" = "yes" ∧ Py.lower "Y" = "y" ∧ Py.lower "n" = "n".
Proof. by repeat split. Qed.

Example affirmative_answers :
  affirmative "y" = true ∧ affirmative "Yes" = true ∧ affirmative "YES" = true ∧
  affirmative "" = false ∧ affirmative "no" = false ∧ affirmative "yes!" = false.
Proof. by repeat split. Qed.

Example writerow_quotes_when_needed :
  Csv.writerow ["plain"; "a,b"; ""]
  = "plain," +:+ Sample.quote +:+ "a,b" +:+ Sample.quote +:+ ","
    +:+ String Py.CR Py.nl.
Proof. reflexivity. Qed.

Example reader_joins_lines_inside_quotes :
  Csv.reader_rows
    (Csv.readlines ("a," +:+ Sample.quote +:+ "b" +:+ Py.nl +:+ "c"
                    +:+ Sample.quote +:+ Py.nl +:+ "d,e" +:+ Py.nl))
  = Some [["a"; "b" +:+ Py.nl +:+ "c"]; ["d"; "e"]].
Proof. reflexivity. Qed.

Example universal_newlines_example :
  Csv.universal_newlines false
    ("a" +:+ String Py.CR Py.nl +:+ "b" +:+ String Py.CR "c")
  = "a" +:+ Py.nl +:+ "b" +:+ Py.nl +:+ "c".
Proof. reflexivity. Qed.

Example literal_substitution :
  Sample.sub "kitchen_old" "kitchen_new" "light.kitchen_old" = "light.kitchen_new".
Proof. reflexivity. Qed.

(** * String facts *)

#[local] Arguments String.append !_ _ / : simpl nomatch.

Lemma string_app_assoc (a b c : string) : (a +:+ b) +:+ c = a +:+ b +:+ c.
Proof. induction a as [|x a IH]; simpl; [done | by rewrite IH]. Qed.

Lemma string_app_nil_r (a : string) : a +:+ "" = a.
Proof. induction a as [|x a IH]; simpl; [done | by rewrite IH]. Qed.

Lemma string_length_app (a b : string) :
  String.length (a +:+ b) = String.length a + String.length b.
Proof. induction a as [|x a IH]; simpl; [done | by rewrite IH]. Qed.

Lemma spaces_length n : String.length (Str.spaces n) = n.
Proof. induction n as [|n IH]; simpl; [done | by rewrite IH]. Qed.

Lemma contains_after c s : Str.contains c s = true ↔ is_Some (Str.after c s).
Proof.
  induction s as [|d s IH]; simpl.
  - split; [done | by intros [? ?]].
  - case_decide; [| done]. split; eauto.
Qed.

Lemma contains_after_None c s : Str.contains c s = false ↔ Str.after c s = None.
Proof.
  rewrite eq_None_not_Some, <- contains_after. by destruct (Str.contains c s).
Qed.

Lemma before_after c s r :
  Str.after c s = Some r → s = Str.before c s +:+ String c r.
Proof.
  induction s as [|d s IH]; simpl; [done |].
  case_decide as Hd.
  - intros [= ->]. by rewrite Hd.
  - intros Hr. simpl. by rewrite <- IH.
Qed.

Lemma before_contains c s : Str.contains c (Str.before c s) = false.
Proof.
  induction s as [|d s IH]; simpl; [done |].
  case_decide; [done |]. simpl. by rewrite decide_False.
Qed.

Lemma before_app_marker c p r :
  Str.contains c p = false → Str.before c (p +:+ String c r) = p.
Proof.
  induction p as [|d p IH]; simpl.
  - intros _. by rewrite decide_True.
  - case_decide; [done |]. intros Hp. by rewrite IH.
Qed.

Lemma contains_app c a b :
  Str.contains c (a +:+ b) = Str.contains c a || Str.contains c b.
Proof. induction a as [|d a IH]; simpl; [done |]. by case_decide. Qed.

Lemma spaces_contains c n : c ≠ " "%char → Str.contains c (Str.spaces n) = false.
Proof.
  intros Hc. induction n as [|n IH]; simpl; [done |].
  by rewrite decide_False.
Qed.

(** * One aligned cell *)

Lemma align_string_unmarked m s :
  Str.contains alignment_char s = false → align_string m s = s.
Proof.
  intros Hs%contains_after_None. unfold align_string, Str.split1.
  by rewrite Hs.
Qed.

Lemma align_string_marked m s :
  Str.contains alignment_char s = true →
  ∃ r, Str.after alignment_char s = Some r ∧
       align_string m s
       = Str.rjust m (Str.before alignment_char s) +:+ "." +:+ r ∧
       align_string m s = Str.spaces (m - prefix_len s) +:+ s ∧
       prefix_len (align_string m s) = m `max` prefix_len s.
Proof.
  intros [r Hr]%contains_after. exists r. split; [done |].
  assert (align_string m s
          = Str.rjust m (Str.before alignment_char s) +:+ "." +:+ r) as Heq.
  { unfold align_string, Str.split1. by rewrite Hr. }
  split; [done |]. rewrite Heq. unfold Str.rjust, prefix_len.
  rewrite string_app_assoc. split.
  - f_equal. symmetry. exact (before_after _ _ _ Hr).
  - rewrite <- string_app_assoc.
    change ("." +:+ r) with (String alignment_char r).
    rewrite before_app_marker.
    + rewrite string_length_app, spaces_length. lia.
    + rewrite contains_app, spaces_contains, before_contains; done.
Qed.

(** * The column loop *)

Lemma column_data_cells j (table : list (list string)) :
  Forall (λ row, j < length row) table →
  column_data j table = Some (cells j table).
Proof.
  unfold column_data, cells.
  induction 1 as [|row table Hrow _ IH]; [done |].
  destruct (lookup_lt_is_Some_2 row j Hrow) as [s Hs].
  simpl. by rewrite Hs, IH.
Qed.

Lemma align_all_row columns table0 (table : list (list string)) i :
  align_all columns table0 table !! i
  = imap (λ j value,
            if decide (j ∈ columns) then align_cell table0 j value else value)
    <$> table !! i.
Proof. unfold align_all. apply list_lookup_fmap. Qed.

Lemma align_all_length columns table0 (table : list (list string)) :
  length (align_all columns table0 table) = length table.
Proof. unfold align_all. apply length_fmap. Qed.

Lemma align_all_wide columns table0 (table : list (list string)) (P : nat → Prop) :
  Forall (λ row, P (length row)) table →
  Forall (λ row, P (length row)) (align_all columns table0 table).
Proof.
  intros Hw. unfold align_all. rewrite Forall_fmap.
  eapply Forall_impl; [exact Hw |].
  intros row. simpl. by rewrite length_imap.
Qed.

Lemma cells_align_all_ne j columns table0 (table : list (list string)) :
  j ∉ columns → cells j (align_all columns table0 table) = cells j table.
Proof.
  intros Hj. unfold cells, align_all.
  induction table as [|row table IH]; [done |].
  cbn [fmap list_fmap omap list_omap].
  rewrite list_lookup_imap. fold (@fmap list _ _ _
    (λ row : list string,
       imap (λ j value,
               if decide (j ∈ columns) then align_cell table0 j value else value)
            row) table).
  fold (omap (M:=list) (λ row : list string, row !! j)).
  rewrite IH. destruct (row !! j); simpl; [| done].
  by rewrite decide_False.
Qed.

Lemma align_cell_ext table1 table2 j s :
  cells j table1 = cells j table2 → align_cell table1 j s = align_cell table2 j s.
Proof.
  intros Hc. unfold align_cell, marker_column, marked. by rewrite Hc.
Qed.

Lemma imap_same {A} (f : nat → A → A) (l : list A) :
  (∀ i x, l !! i = Some x → f i x = x) → imap f l = l.
Proof.
  intros Hf. apply list_eq. intros i. rewrite list_lookup_imap.
  destruct (l !! i) eqn:Hi; simpl; [| done]. by rewrite (Hf _ _ Hi).
Qed.

Lemma align_column_all c (table : list (list string)) :
  Forall (λ row, c < length row) table →
  align_column c table = Some (align_all [c] table table).
Proof.
  intros Hw. unfold align_column. rewrite (column_data_cells _ _ Hw).
  cbn [mbind option_bind]. fold (marked c table).
  unfold align_all, align_cell.
  destruct (decide (length (marked c table) = 0)) as [Hnone|Hsome].
  - f_equal. symmetry. erewrite list_fmap_ext; [apply list_fmap_id |].
    intros i row _. simpl. apply imap_same. intros j s _.
    destruct (decide (j ∈ [c])) as [->%list_elem_of_singleton|]; [| done].
    by rewrite decide_True.
  - f_equal. unfold replace_column. apply list_fmap_ext. intros i row _.
    apply imap_ext. intros j s _. simpl.
    destruct (decide (j = c)) as [->|Hne].
    + rewrite (decide_True (P:=c ∈ [c])) by (by left). by rewrite decide_False.
    + by rewrite (decide_False (P:=j ∈ [c])) by (by intros ?%list_elem_of_singleton).
Qed.

Lemma align_all_step c rest (table0 table1 table : list (list string)) :
  c ∉ rest →
  (∀ j, j ≠ c → cells j table1 = cells j table0) →
  align_all rest table1 (align_all [c] table0 table)
  = align_all (c :: rest) table0 table.
Proof.
  intros Hc Hcells. unfold align_all.
  rewrite <- list_fmap_compose. apply list_fmap_ext. intros i row _. simpl.
  apply list_eq. intros j. rewrite !list_lookup_imap.
  destruct (row !! j) as [s|]; simpl; [| done]. f_equal.
  destruct (decide (j = c)) as [->|Hne].
  - rewrite (decide_True (P:=c ∈ [c])) by (by left).
    rewrite (decide_False (P:=c ∈ rest)) by done.
    by rewrite (decide_True (P:=c ∈ c :: rest)) by (by left).
  - rewrite (decide_False (P:=j ∈ [c])) by (by intros ?%list_elem_of_singleton).
    destruct (decide (j ∈ rest)) as [Hin|Hout].
    + rewrite (decide_True (P:=j ∈ c :: rest)) by (by right).
      apply align_cell_ext. by apply Hcells.
    + by rewrite (decide_False (P:=j ∈ c :: rest)) by (by intros [?|?]%elem_of_cons).
Qed.

Lemma align_columns_all columns (table : list (list string)) :
  NoDup columns →
  Forall (λ row, Forall (λ c, c < length row) columns) table →
  align_columns columns table = Some (align_all columns table table).
Proof.
  intros Hnd. revert table.
  induction Hnd as [|c rest Hc _ IH]; intros table Hw.
  - simpl. f_equal. unfold align_all. symmetry.
    erewrite list_fmap_ext; [apply list_fmap_id |].
    intros i row _. simpl. by apply imap_same.
  - simpl. rewrite align_column_all.
    + cbn [mbind option_bind]. rewrite IH.
      { f_equal. apply align_all_step; [done |]. intros j Hj.
        apply cells_align_all_ne. by intros ?%list_elem_of_singleton. }
      apply (align_all_wide _ _ _ (λ n, Forall (λ c, c < n) rest)).
      eapply Forall_impl; [exact Hw |]. intros row Hrow. simpl in *.
      by inversion Hrow.
    + eapply Forall_impl; [exact Hw |]. intros row Hrow. simpl in *.
      by inversion Hrow.
Qed.

Lemma align_strings_all (table : list (list string)) :
  Forall (λ row, length (default [] (head table)) ≤ length row) table →
  align_strings table
  = Some (align_all (seq 0 (length (default [] (head table)))) table table).
Proof.
  intros Hw. destruct table as [|row0 table].
  - done.
  - unfold align_strings. simpl head. simpl default.
    apply align_columns_all; [apply NoDup_seq |].
    eapply Forall_impl; [exact Hw |]. intros row Hrow. simpl in *.
    apply Forall_forall. intros c Hin%elem_of_seq. lia.
Qed.

Lemma marked_prefix_le (table : list (list string)) i j row s :
  table !! i = Some row → row !! j = Some s →
  Str.contains alignment_char s = true →
  marked j table ≠ [] ∧ prefix_len s ≤ marker_column j table.
Proof.
  intros Hrow Hs Hdot.
  assert (s ∈ marked j table) as Hin.
  { unfold marked. apply list_elem_of_In, filter_In. split; [| done].
    apply list_elem_of_In. unfold cells. apply list_elem_of_omap.
    exists row. split; [| done]. by eapply list_elem_of_lookup_2. }
  split.
  - intros Hnil. rewrite Hnil in Hin. by apply not_elem_of_nil in Hin.
  - unfold marker_column. apply max_list_elem_of_le.
    by apply list_elem_of_fmap_2.
Qed.

(** C8.  For every rectangular table, [align_strings] returns a table of the
    same shape in which every cell that contains a period has the text before
    its first period right-aligned (spaces added on the left) to the longest
    such text of its column, so that the periods of a column stand at one
    offset; a cell without a period is returned as it is.  For the column
    ["a.bc"; "abc.d"; "x"] the width is 3 and the result is
    ["  a.bc"; "abc.d"; "x"]. *)
Theorem align_strings_aligns :
  (∀ (table : list (list string)) (n : nat),
     Forall (λ row, length row = n) table →
     ∃ table',
       align_strings table = Some table' ∧
       length table' = length table ∧
       ∀ i row, table !! i = Some row →
         ∃ row', table' !! i = Some row' ∧ length row' = length row ∧
           ∀ j s, row !! j = Some s →
             ∃ s', row' !! j = Some s' ∧
               if Str.contains alignment_char s
               then ∃ rest,
                   Str.after alignment_char s = Some rest ∧
                   s' = Str.rjust (marker_column j table)
                                  (Str.before alignment_char s)
                        +:+ "." +:+ rest ∧
                   prefix_len s ≤ marker_column j table ∧
                   prefix_len s' = marker_column j table
               else s' = s) ∧
  align_strings [["a.bc"]; ["abc.d"]; ["x"]]
  = Some [["  a.bc"]; ["abc.d"]; ["x"]].
Proof.
  split; [| reflexivity].
  intros table n Hrect.
  assert (Forall (λ row, length (default [] (head table)) ≤ length row) table)
    as Hwide.
  { destruct table as [|row0 table]; [done |]. simpl.
    inversion Hrect as [|? ? H0 _]; subst.
    eapply Forall_impl; [exact Hrect |]. intros row Hrow. simpl in *. lia. }
  eexists. split; [by apply align_strings_all |].
  split; [apply align_all_length |].
  intros i row Hrow. rewrite align_all_row, Hrow. simpl.
  eexists. split; [done |]. split; [apply length_imap |].
  intros j s Hs. rewrite list_lookup_imap, Hs. simpl.
  eexists. split; [done |].
  assert (j ∈ seq 0 (length (default [] (head table)))) as Hj.
  { apply elem_of_seq. apply lookup_lt_Some in Hs.
    rewrite Forall_forall in Hrect.
    rewrite (Hrect row) in Hs by (by eapply list_elem_of_lookup_2).
    destruct table as [|row0 table]; [done |]. simpl.
    rewrite (Hrect row0) by (by left). lia. }
  rewrite decide_True by done. unfold align_cell.
  destruct (Str.contains alignment_char s) eqn:Hdot.
  - destruct (marked_prefix_le table i j row s Hrow Hs Hdot) as [Hne Hle].
    rewrite decide_False by (by destruct (marked j table)).
    destruct (align_string_marked (marker_column j table) s Hdot)
      as (rest & Hrest & Heq & _ & Hlen).
    exists rest. repeat split; [done | done | done |]. lia.
  - case_decide; [done |]. by apply align_string_unmarked.
Qed.

(** The theorem at the three-row column of the specification. *)
Lemma align_strings_aligns_witness :
  Forall (λ row : list string, length row = 1) [["a.bc"]; ["abc.d"]; ["x"]] ∧
  ∃ table', align_strings [["a.bc"]; ["abc.d"]; ["x"]] = Some table' ∧
            length table' = 3.
Proof.
  assert (Forall (λ row : list string, length row = 1)
                 [["a.bc"]; ["abc.d"]; ["x"]]) as H.
  { repeat constructor. }
  split; [exact H |].
  destruct (proj1 align_strings_aligns _ _ H) as (table' & Heq & Hlen & _).
  exists table'. split; [exact Heq | exact Hlen].
Defined.

(** * Order of strings *)

Lemma ascii_compare_refl (a : ascii) : Ascii.compare a a = Eq.
Proof. unfold Ascii.compare. apply N.compare_refl. Qed.

Lemma ascii_compare_lt_trans (a b c : ascii) :
  Ascii.compare a b = Lt → Ascii.compare b c = Lt → Ascii.compare a c = Lt.
Proof.
  unfold Ascii.compare. rewrite !N.compare_lt_iff. lia.
Qed.

Lemma string_compare_refl (s : string) : String.compare s s = Eq.
Proof.
  induction s as [|a s IH]; simpl; [done |]. by rewrite ascii_compare_refl.
Qed.

Lemma string_compare_lt_trans (s1 s2 s3 : string) :
  String.compare s1 s2 = Lt → String.compare s2 s3 = Lt →
  String.compare s1 s3 = Lt.
Proof.
  revert s2 s3. induction s1 as [|a s1 IH]; intros [|b s2] [|c s3]; simpl;
    try done.
  destruct (Ascii.compare a b) eqn:Hab; [| | done].
  - apply Ascii.compare_eq_iff in Hab as ->.
    destruct (Ascii.compare b c); [apply IH | done | done].
  - destruct (Ascii.compare b c) eqn:Hbc; [| | done].
    + apply Ascii.compare_eq_iff in Hbc as <-. by rewrite Hab.
    + by rewrite (ascii_compare_lt_trans _ _ _ Hab Hbc).
Qed.

Lemma string_leb_lt_or_eq (s1 s2 : string) :
  String.leb s1 s2 = true ↔ String.compare s1 s2 = Lt ∨ s1 = s2.
Proof.
  unfold String.leb. split.
  - destruct (String.compare s1 s2) eqn:Hc; [| by left | done].
    right. by apply String.compare_eq_iff.
  - intros [-> | ->]; [done |]. by rewrite string_compare_refl.
Qed.

Lemma string_leb_trans (s1 s2 s3 : string) :
  String.leb s1 s2 = true → String.leb s2 s3 = true → String.leb s1 s3 = true.
Proof.
  rewrite !string_leb_lt_or_eq. intros [H12 | ->] [H23 | ->]; eauto.
  left. by eapply string_compare_lt_trans.
Qed.

Lemma string_ltb_leb (s1 s2 : string) :
  String.ltb s1 s2 = true → String.leb s1 s2 = true.
Proof.
  unfold String.ltb, String.leb. by destruct (String.compare s1 s2).
Qed.

Lemma string_ltb_false_leb (s1 s2 : string) :
  String.ltb s1 s2 = false → String.leb s2 s1 = true.
Proof.
  unfold String.ltb, String.leb. rewrite (String.compare_antisym s2 s1).
  by destruct (String.compare s1 s2).
Qed.

Lemma string_ltb_neq (s1 s2 : string) : String.ltb s1 s2 = true → s1 ≠ s2.
Proof.
  unfold String.ltb. intros Hlt ->. by rewrite string_compare_refl in Hlt.
Qed.

(** * [sorted] orders, keeps every element, and is stable *)

Section sorted.

Context {A : Type} (key : A → string).

Lemma insert_by_Permutation x l : Py.insert_by key x l ≡ₚ x :: l.
Proof.
  induction l as [|y l IH]; simpl; [done |].
  destruct (String.ltb (key y) (key x)); [| done].
  rewrite IH. apply Permutation_swap.
Qed.

Lemma sorted_Permutation l : Py.sorted key l ≡ₚ l.
Proof.
  induction l as [|x l IH]; simpl; [done |].
  by rewrite insert_by_Permutation, IH.
Qed.

Lemma insert_by_StronglySorted x l :
  StronglySorted (Py.key_le key) l →
  StronglySorted (Py.key_le key) (Py.insert_by key x l).
Proof.
  induction 1 as [|y l Hl IH Hy]; simpl.
  - by repeat constructor.
  - destruct (String.ltb (key y) (key x)) eqn:Hlt.
    + constructor; [done |]. rewrite insert_by_Permutation.
      constructor; [| done]. by apply string_ltb_leb.
    + apply string_ltb_false_leb in Hlt.
      constructor; [by constructor |]. constructor; [done |].
      eapply Forall_impl; [exact Hy |]. intros z Hz.
      unfold Py.key_le in *. by eapply string_leb_trans.
Qed.

Lemma sorted_StronglySorted l :
  StronglySorted (Py.key_le key) (Py.sorted key l).
Proof.
  induction l as [|x l IH]; simpl; [constructor |].
  by apply insert_by_StronglySorted.
Qed.

Lemma insert_by_stable k x l :
  filter (λ a, key a = k) (Py.insert_by key x l)
  = filter (λ a, key a = k) (x :: l).
Proof.
  induction l as [|y l IH]; simpl; [done |].
  destruct (String.ltb (key y) (key x)) eqn:Hlt; [| done].
  apply string_ltb_neq in Hlt.
  rewrite (filter_cons _ y), IH, !(filter_cons _ x), (filter_cons _ y).
  repeat case_decide; congruence.
Qed.

Lemma sorted_stable k l :
  filter (λ a, key a = k) (Py.sorted key l) = filter (λ a, key a = k) l.
Proof.
  induction l as [|x l IH]; simpl; [done |].
  by rewrite insert_by_stable, !filter_cons, IH.
Qed.

End sorted.

(** * Lister *)

Section lister.

Context `{Externals}.

Lemma filter_search_matching pattern l :
  (∀ id, is_Some (re_search pattern id)) →
  filter_search pattern l = Some (matching pattern l).
Proof.
  intros Hvalid. induction l as [|[name id] l IH]; simpl; [done |].
  destruct (Hvalid id) as [found Hfound]. rewrite Hfound, IH. simpl.
  by destruct found.
Qed.

Lemma matching_all pattern l :
  (∀ id, re_search pattern id = Some true) → matching pattern l = l.
Proof.
  intros Hall. induction l as [|[name id] l IH]; simpl; [done |].
  rewrite bool_decide_eq_true_2 by done. by rewrite IH.
Qed.

Lemma list_entities_ok (pattern : string) (r : response) (w : world) :
  (∀ s, re_search "" s = Some true) →
  (∀ id, is_Some (re_search pattern id)) →
  rest_api w = Some r → status_code r = 200%Z →
  list_entities (Some pattern) w
  = (Ok (Py.sorted fst (matching pattern (listed r))),
     log (HttpGet ("http" +:+ TLS_S +:+ "://" +:+ HOST +:+ "/api/states")) w).
Proof.
  intros Hempty Hvalid Hw Hr. unfold list_entities.
  unfold mbind, M_bind, requests_get. rewrite Hw.
  rewrite decide_True by done. fold (listed r).
  destruct pattern as [|c pattern]; simpl.
  - by rewrite matching_all.
  - by rewrite filter_search_matching.
Qed.

End lister.

(** * The csv reader on the text the writer produces *)

Module CsvFacts.
Import Csv.

Lemma read_records_cons_line r c lines :
  read_records r (cons_line c lines)
  = process_char r (Some c) ≫= λ r', read_records r' (pending lines).
Proof.
  destruct lines as [|l rest]; simpl;
    by destruct (process_char r (Some c)).
Qed.

Lemma pending_readlines c s :
  pending (readlines (String c s)) = readlines (String c s).
Proof.
  simpl. case_decide; [done |]. by destruct (readlines s).
Qed.

Lemma feed_char r c s :
  c ≠ Py.LF →
  feed r (String c s) = process_char r (Some c) ≫= λ r', feed r' s.
Proof.
  intros Hc. unfold feed. rewrite pending_readlines. simpl.
  rewrite decide_False by done. apply read_records_cons_line.
Qed.

Lemma feed_newline r s :
  feed r (String Py.LF s)
  = process_char r (Some Py.LF) ≫= λ r1,
    process_char r1 None ≫= λ r2, next_line r2 s.
Proof.
  unfold feed, next_line. rewrite pending_readlines. simpl.
  destruct (process_char r (Some Py.LF)) as [r1|]; simpl; [| done].
  by destruct (process_char r1 None) as [r2|].
Qed.

Lemma read_records_feed r c s :
  read_records r (readlines (String c s)) = feed r (String c s).
Proof. unfold feed. by rewrite pending_readlines. Qed.

Lemma read_records_feed_app r a c t :
  read_records r (readlines (a +:+ String c t)) = feed r (a +:+ String c t).
Proof. destruct a; simpl String.append; apply read_records_feed. Qed.

Lemma reader_eta r : Reader (state r) (fields r) (field r) = r.
Proof. by destruct r. Qed.

Lemma special_false c :
  special c = false →
  c ≠ delimiter ∧ c ≠ quotechar ∧ c ≠ Py.LF ∧ is_newline c = false.
Proof.
  unfold special, is_newline. intros Hc.
  repeat (apply orb_false_elim in Hc as [Hc ?]).
  repeat match goal with
         | H : bool_decide _ = false |- _ => apply bool_decide_eq_false in H
         end.
  repeat split; try done.
  by rewrite !bool_decide_eq_false_2.
Qed.

Lemma add_char_fits r c st :
  (Z.of_nat (String.length (field r)) < field_limit)%Z →
  add_char r c st = Some (Reader st (fields r) (field r +:+ String c "")).
Proof. intros Hr. unfold add_char. by rewrite decide_False by lia. Qed.

(** Text without special characters is taken into the field as it is,
    as long as the field stays within the limit. *)
Lemma feed_plain r u t :
  has_special u = false →
  state r = START_RECORD ∨ state r = START_FIELD ∨ state r = IN_FIELD →
  (Z.of_nat (String.length (field r) + String.length u) ≤ field_limit)%Z →
  feed r (u +:+ t)
  = feed (Reader (if Py.nonempty u then IN_FIELD else state r)
                 (fields r) (field r +:+ u)) t.
Proof.
  revert r. induction u as [|c u IH]; intros r Hu Hr Hlen.
  - simpl. by rewrite string_app_nil_r, reader_eta.
  - simpl in Hu. apply orb_false_elim in Hu as [Hc Hu].
    destruct (special_false c Hc) as (Hd & Hq & Hlf & Hnl).
    simpl in Hlen.
    simpl String.append. rewrite feed_char by done.
    assert (process_char r (Some c)
            = Some (Reader IN_FIELD (fields r) (field r +:+ String c "")))
      as ->.
    { rewrite <- add_char_fits by lia.
      unfold process_char, start_field.
      destruct Hr as [-> | [-> | ->]]; rewrite Hnl;
        rewrite ?(decide_False (P:=c = quotechar)) by done;
        by rewrite ?(decide_False (P:=c = delimiter)) by done. }
    simpl. rewrite IH; [| done | simpl; auto |].
    + simpl. rewrite string_app_assoc. simpl. by destruct (Py.nonempty u).
    + simpl. rewrite string_length_app. simpl. lia.
Qed.

Lemma process_char_in_quotes r c :
  state r = IN_QUOTED_FIELD → c ≠ quotechar →
  (Z.of_nat (String.length (field r)) < field_limit)%Z →
  process_char r (Some c)
  = Some (Reader IN_QUOTED_FIELD (fields r) (field r +:+ String c "")).
Proof.
  intros Hr Hc Hlen. rewrite <- (add_char_fits r c) by done.
  unfold process_char. by rewrite Hr, decide_False.
Qed.

Lemma process_char_in_quotes_eol r :
  state r = IN_QUOTED_FIELD → process_char r None = Some r.
Proof. intros Hr. unfold process_char. by rewrite Hr. Qed.

(** The inside of a quoted field, up to the closing quote. *)
Lemma feed_quoted r f t :
  state r = IN_QUOTED_FIELD →
  (Z.of_nat (String.length (field r) + String.length f) ≤ field_limit)%Z →
  feed r (double_quotes f +:+ String quotechar t)
  = feed (Reader QUOTE_IN_QUOTED_FIELD (fields r) (field r +:+ f)) t.
Proof.
  revert r. induction f as [|c f IH]; intros r Hr Hlen.
  - simpl. rewrite feed_char by done. unfold process_char. rewrite Hr.
    rewrite decide_True by done. simpl. unfold goto.
    by rewrite string_app_nil_r.
  - simpl in Hlen.
    assert (Z.of_nat (String.length (field r +:+ String c "")
                      + String.length f) ≤ field_limit)%Z as Hlen'.
    { rewrite string_length_app. simpl. lia. }
    simpl double_quotes. destruct (decide (c = quotechar)) as [->|Hq].
    + simpl String.append. rewrite feed_char by done.
      unfold process_char at 1. rewrite Hr, decide_True by done. simpl.
      rewrite feed_char by done. unfold process_char. simpl.
      rewrite add_char_fits by (simpl; lia). simpl.
      rewrite IH by done. simpl. by rewrite string_app_assoc.
    + simpl String.append. destruct (decide (c = Py.LF)) as [->|Hlf].
      * rewrite feed_newline, process_char_in_quotes by (done || lia). simpl.
        rewrite ?process_char_in_quotes_eol by done. simpl.
        unfold next_line. simpl. rewrite read_records_feed_app.
        rewrite IH by done. simpl. by rewrite string_app_assoc.
      * rewrite feed_char, process_char_in_quotes by (done || lia). simpl.
        rewrite IH by done. simpl. by rewrite string_app_assoc.
Qed.

Lemma feed_field r f t :
  state r = START_RECORD ∨ state r = START_FIELD →
  field r = EmptyString → fits f →
  feed r (write_field f +:+ t)
  = feed (Reader (after_field (state r) f) (fields r) f) t.
Proof.
  intros Hr Hf Hfits. unfold fits in Hfits. unfold write_field, after_field.
  destruct (has_special f) eqn:Hs.
  - simpl String.append. rewrite feed_char by done.
    assert (process_char r (Some quotechar) = Some (goto r IN_QUOTED_FIELD))
      as ->.
    { unfold process_char, start_field. by destruct Hr as [-> | ->]. }
    simpl. rewrite string_app_assoc. simpl String.append.
    rewrite feed_quoted by (simpl; rewrite ?Hf; done). simpl.
    by rewrite Hf.
  - rewrite feed_plain by (rewrite ?Hf; tauto). by rewrite Hf.
Qed.

Lemma feed_delimiter r t :
  state r ≠ IN_QUOTED_FIELD → state r ≠ EAT_CRNL →
  feed r (String delimiter t) = feed (save_field r START_FIELD) t.
Proof.
  intros H1 H2. rewrite feed_char by done.
  unfold process_char, start_field. by destruct (state r).
Qed.

Lemma feed_end r t :
  state r = START_FIELD ∨ state r = IN_FIELD
  ∨ state r = QUOTE_IN_QUOTED_FIELD →
  feed r (String Py.LF t)
  = ((fields r ++ [field r]) ::.) <$> read_records reset (readlines t).
Proof.
  intros Hr. rewrite feed_newline.
  destruct r as [st fs fl]. simpl in Hr.
  by destruct Hr as [-> | [-> | ->]].
Qed.

Lemma after_field_closed st f :
  st = START_RECORD ∨ st = START_FIELD →
  after_field st f ≠ IN_QUOTED_FIELD ∧ after_field st f ≠ EAT_CRNL.
Proof.
  unfold after_field. intros [-> | ->];
    by destruct (has_special f), (Py.nonempty f).
Qed.

(** The fields of a record after its first. *)
Lemma feed_fields fs row t :
  row ≠ [] → Forall fits row →
  feed (Reader START_FIELD fs EmptyString)
       (Py.join (String delimiter "") (write_field <$> row)
        +:+ String Py.LF t)
  = ((fs ++ row) ::.) <$> read_records reset (readlines t).
Proof.
  revert fs. induction row as [|f row IH]; intros fs Hrow Hfits; [done |].
  inversion Hfits as [|? ? Hf Hfits']; subst.
  destruct row as [|g row].
  - simpl. rewrite feed_field by (simpl; auto). rewrite feed_end; [done |].
    unfold after_field. simpl.
    destruct (has_special f), (Py.nonempty f); auto.
  - change (Py.join (String delimiter "") (write_field <$> f :: g :: row))
      with (write_field f +:+ String delimiter ""
            +:+ Py.join (String delimiter "") (write_field <$> g :: row)).
    rewrite !string_app_assoc. rewrite feed_field by (simpl; auto).
    simpl String.append at 1.
    rewrite feed_delimiter by (apply after_field_closed; simpl; auto).
    unfold save_field. simpl fields. simpl field.
    rewrite IH by done. by rewrite <- app_assoc.
Qed.

Lemma read_record row t :
  Forall fits row →
  read_records reset (readlines (unix_row row +:+ t))
  = (row ::.) <$> read_records reset (readlines t).
Proof.
  intros Hfits. unfold unix_row, Py.nl.
  destruct row as [|f [|g row]].
  - simpl String.append. rewrite read_records_feed, feed_newline. done.
  - inversion Hfits as [|? ? Hf _]; subst. destruct f as [|c f].
    + simpl String.append. rewrite read_records_feed.
      rewrite feed_char by done. simpl. rewrite feed_char by done. simpl.
      by rewrite feed_end by (simpl; auto).
    + change (Py.join (String delimiter "") (write_field <$> [String c f]))
        with (write_field (String c f)).
      rewrite string_app_assoc.
      change (String Py.LF "" +:+ t) with (String Py.LF t).
      rewrite read_records_feed_app.
      rewrite feed_field by (simpl; auto).
      rewrite feed_end; [done |]. unfold after_field. simpl.
      destruct (special c || has_special f); auto.
  - inversion Hfits as [|? ? Hf Hfits']; subst.
    assert (match f :: g :: row with
            | [EmptyString] => String quotechar (String quotechar "")
            | _ => Py.join (String delimiter "") (write_field <$> f :: g :: row)
            end
            = write_field f +:+ String delimiter
                (Py.join (String delimiter "") (write_field <$> g :: row)))
      as -> by (by destruct f).
    rewrite !string_app_assoc.
    change (String delimiter
              (Py.join (String delimiter "") (write_field <$> g :: row))
            +:+ String Py.LF "" +:+ t)
      with (String delimiter
              (Py.join (String delimiter "") (write_field <$> g :: row)
               +:+ String Py.LF t)).
    rewrite read_records_feed_app.
    rewrite feed_field by (simpl; auto).
    rewrite feed_delimiter by (apply after_field_closed; simpl; auto).
    unfold save_field. simpl fields. simpl field.
    by rewrite feed_fields.
Qed.

Lemma read_unix_rows table :
  Forall (Forall fits) table →
  reader_rows (readlines (unix_rows table)) = Some table.
Proof.
  unfold reader_rows. induction 1 as [|row table Hrow _ IH]; simpl; [done |].
  by rewrite read_record, IH.
Qed.

(** ** Newline translation *)

Lemma universal_newlines_cr_free s t :
  cr_free s →
  universal_newlines false (s +:+ t) = s +:+ universal_newlines false t.
Proof.
  unfold cr_free. induction s as [|c s IH]; simpl; [done |].
  case_decide as Hc; [done |]. intros Hs.
  case_decide as Hlf; rewrite IH by done; [by rewrite Hlf | done].
Qed.

Lemma universal_newlines_crlf t :
  universal_newlines false (String Py.CR (String Py.LF t))
  = String Py.LF (universal_newlines false t).
Proof. done. Qed.

Lemma plain_cr_free s : has_special s = false → cr_free s.
Proof.
  unfold cr_free. induction s as [|c s IH]; simpl; [done |].
  intros [Hc Hs]%orb_false_elim.
  unfold special in Hc.
  apply orb_false_elim in Hc as [Hc _].
  apply orb_false_elim in Hc as [_ Hc].
  apply bool_decide_eq_false in Hc.
  rewrite decide_False by done. by apply IH.
Qed.

Lemma cr_free_app s t : cr_free s → cr_free t → cr_free (s +:+ t).
Proof. unfold cr_free. rewrite contains_app. by intros -> ->. Qed.

Lemma cr_free_double_quotes s : cr_free s → cr_free (double_quotes s).
Proof.
  unfold cr_free. induction s as [|c s IH]; simpl; [done |].
  case_decide as Hc; [done |]. intros Hs.
  case_decide; simpl; rewrite ?(decide_False (P:=c = Py.CR)) by done; auto.
Qed.

Lemma cr_free_write_field s : cr_free s → cr_free (write_field s).
Proof.
  intros Hs. unfold write_field. destruct (has_special s); [| done].
  apply (cr_free_app (String quotechar "")); [done |].
  apply cr_free_app; [| done]. by apply cr_free_double_quotes.
Qed.

Lemma cr_free_join row :
  Forall cr_free row →
  cr_free (Py.join (String delimiter "") (write_field <$> row)).
Proof.
  induction 1 as [|f row Hf Hrow IH]; [done |].
  destruct row as [|g row]; [by apply cr_free_write_field |].
  change (cr_free (write_field f +:+ String delimiter ""
                   +:+ Py.join (String delimiter "") (write_field <$> g :: row))).
  apply cr_free_app; [by apply cr_free_write_field |].
  by apply cr_free_app.
Qed.

Lemma universal_newlines_writerows table :
  Forall (Forall cr_free) table →
  universal_newlines false (writerows table) = unix_rows table.
Proof.
  induction 1 as [|row table Hrow _ IH]; [done |].
  simpl. unfold writerow, unix_row.
  rewrite !string_app_assoc, universal_newlines_cr_free.
  - f_equal.
    change (String Py.CR (String Py.LF "") +:+ writerows table)
      with (String Py.CR (String Py.LF (writerows table))).
    by rewrite universal_newlines_crlf, IH.
  - destruct row as [|[|c f] [|g row]]; try done; by apply cr_free_join.
Qed.

Lemma universal_newlines_id s :
  cr_free s → universal_newlines false s = s.
Proof.
  intros Hs. rewrite <- (string_app_nil_r s) at 1.
  rewrite universal_newlines_cr_free by done. simpl.
  apply string_app_nil_r.
Qed.

Lemma cr_free_unix_rows table :
  Forall (Forall cr_free) table → cr_free (unix_rows table).
Proof.
  induction 1 as [|row table Hrow _ IH]; [done |].
  simpl. apply cr_free_app; [| done]. unfold unix_row.
  apply cr_free_app; [| done].
  destruct row as [|[|c f] [|g row]]; try done; by apply cr_free_join.
Qed.

(** Written and read back, a table without carriage returns, and with no
    cell beyond the field limit, is the same table. *)
Lemma write_read table :
  Forall (Forall cr_free) table → Forall (Forall fits) table →
  reader_rows (readlines (universal_newlines false (writerows table)))
  = Some table.
Proof.
  intros Hcr Hfits. by rewrite universal_newlines_writerows, read_unix_rows.
Qed.

(** The same for a text with the line ends of Unix. *)
Lemma unix_read table :
  Forall (Forall cr_free) table → Forall (Forall fits) table →
  reader_rows (readlines (universal_newlines false (unix_rows table)))
  = Some table.
Proof.
  intros Hcr Hfits.
  rewrite universal_newlines_id by (by apply cr_free_unix_rows).
  by apply read_unix_rows.
Qed.

End CsvFacts.

(** * Export and input file *)

Lemma filter_all {A} (f : A → bool) (l : list A) :
  (∀ x, x ∈ l → f x = true) → List.filter f l = l.
Proof.
  induction l as [|x l IH]; intros Hf; simpl; [done |].
  rewrite Hf by left. rewrite IH; [done |]. intros y Hy. apply Hf. by right.
Qed.

Lemma read_row_full (row : plan_row) :
  read_row (Csv.dict_row header (row_cells row)) = Some (as_read row).
Proof.
  destruct row as [[friendly_name entity_id] new_entity_id].
  unfold read_row, Csv.dict_row, header. simpl.
  rewrite (lookup_insert_ne _ "New Entity ID" "Current Entity ID") by done.
  rewrite lookup_insert_eq. simpl.
  rewrite (lookup_insert_ne _ "New Entity ID" "Friendly Name") by done.
  rewrite (lookup_insert_ne _ "Current Entity ID" "Friendly Name") by done.
  by rewrite !lookup_insert_eq.
Qed.

Lemma str_row_as_read (rename_data : list plan_row) :
  mapM str_row (as_read <$> rename_data) = Some rename_data.
Proof.
  apply mapM_Some, Forall2_fmap_l, Forall_Forall2_diag, Forall_forall.
  by intros [[f e] n] _.
Qed.

Lemma header_fits : Forall Csv.fits header.
Proof. repeat constructor; by vm_compute. Qed.

Lemma read_rows_export (rename_data : list plan_row) :
  plan_cr_free rename_data → plan_fits rename_data →
  read_rows (Csv.universal_newlines false (export_text rename_data))
  = Ok (as_read <$> rename_data).
Proof.
  intros Hcr Hfits. unfold read_rows, Csv.DictReader, export_text.
  rewrite CsvFacts.write_read.
  - simpl. clear Hcr Hfits.
    assert (mapM read_row
              (Csv.dict_row header
               <$> List.filter (λ row, negb (bool_decide (row = [])))
                     (row_cells <$> rename_data))
            = Some (as_read <$> rename_data)) as ->; [| done].
    assert (List.filter (λ row, negb (bool_decide (row = [])))
                        (row_cells <$> rename_data)
            = row_cells <$> rename_data) as ->.
    { apply filter_all. by intros row ([[f e] n] & -> & _)%list_elem_of_fmap. }
    apply mapM_Some. rewrite <- list_fmap_compose.
    apply Forall2_fmap, Forall_Forall2_diag, Forall_forall.
    intros row _. apply read_row_full.
  - constructor.
    + repeat constructor.
    + apply Forall_fmap. exact Hcr.
  - constructor.
    + exact header_fits.
    + apply Forall_fmap. exact Hfits.
Qed.

Lemma load_plan_export (rename_data : list plan_row) (name : string) (w : world) :
  plan_cr_free rename_data → plan_fits rename_data → rename_data ≠ [] →
  files w !! name = Some (export_text rename_data) →
  load_plan name w = (Ok (Some rename_data), log (FileRead name) w).
Proof.
  intros Hcr Hfits Hne Hfile. unfold load_plan, mbind, M_bind, read_text.
  rewrite Hfile, read_rows_export by done.
  rewrite decide_False by (by destruct rename_data).
  unfold fmap, M_fmap, mbind, M_bind. by rewrite str_row_as_read.
Qed.

(** * Running computations *)

Lemma bind_ok {A B} (m : M A) (f : A → M B) w a w' :
  m w = (Ok a, w') → (m ≫= f) w = f a w'.
Proof. intros Hm. unfold mbind, M_bind. by rewrite Hm. Qed.

Lemma bind_raise {A B} (m : M A) (f : A → M B) w e w' :
  m w = (Raise e, w') → (m ≫= f) w = (Raise e, w').
Proof. intros Hm. unfold mbind, M_bind. by rewrite Hm. Qed.

Lemma log_emits e w : log e w = emits [e] w.
Proof. done. Qed.

Lemma emits_emits l1 l2 w : emits l2 (emits l1 w) = emits (l1 ++ l2) w.
Proof. unfold emits. simpl. by rewrite app_assoc. Qed.

Lemma emits_nil w : emits [] w = w.
Proof. destruct w. unfold emits. simpl. by rewrite app_nil_r. Qed.

(** * Computations that stay local *)

Section only.

Context {P : event → bool}.

Lemma only_ret {A} (a : A) : only P (mret a).
Proof. intros w. exists []. by rewrite app_nil_r. Qed.

Lemma only_raise {A} e : only P (raise (A:=A) e).
Proof. intros w. exists []. by rewrite app_nil_r. Qed.

Lemma only_bind {A B} (m : M A) (f : A → M B) :
  only P m → (∀ a, only P (f a)) → only P (m ≫= f).
Proof.
  intros Hm Hf w. destruct (Hm w) as (new1 & Ht1 & HP1 & Hs1 & Hw1).
  unfold mbind, M_bind. destruct (m w) as [[a|e] w1]; simpl in *.
  - destruct (Hf a w1) as (new2 & Ht2 & HP2 & Hs2 & Hw2).
    exists (new1 ++ new2). rewrite Ht2, Ht1, Hs2, Hw2, app_assoc.
    repeat split; try done. by apply Forall_app.
  - by exists new1.
Qed.

Lemma only_fmap {A B} (g : A → B) (m : M A) : only P m → only P (g <$> m).
Proof. intros Hm. apply only_bind; [done |]. intros a. apply only_ret. Qed.

Lemma only_lift {A} e (x : option A) : only P (lift e x).
Proof. destruct x; [apply only_ret | apply only_raise]. Qed.

Lemma only_emit e : P e = true → only P (emit e).
Proof. intros He w. exists [e]. simpl. by repeat constructor. Qed.

Lemma only_print line : P (Print line) = true → only P (print line).
Proof. apply only_emit. Qed.

Lemma only_if {A} (b : bool) (m1 m2 : M A) :
  only P m1 → only P m2 → only P (if b then m1 else m2).
Proof. by destruct b. Qed.

Lemma only_requests_get url :
  P (HttpGet url) = true → only P (requests_get url).
Proof.
  intros He w. exists [HttpGet url]. unfold requests_get.
  destruct (rest_api w); simpl; by repeat constructor.
Qed.

Lemma only_read_text name :
  P (FileRead name) = true → only P (read_text name).
Proof.
  intros He w. unfold read_text. destruct (files w !! name); simpl.
  - exists [FileRead name]. by repeat constructor.
  - exists []. by rewrite app_nil_r.
Qed.

Lemma only_write_text name content :
  P (FileWrite name content) = true → only P (write_text name content).
Proof. intros He w. exists [FileWrite name content]. simpl. by repeat constructor. Qed.

End only.

Lemma only_weaken {A} (P Q : event → bool) (m : M A) :
  (∀ e, P e = true → Q e = true) → only P m → only Q m.
Proof.
  intros HPQ Hm w. destruct (Hm w) as (new & Ht & HP & Hs & Hw).
  exists new. repeat split; try done.
  eapply Forall_impl; [exact HP |]. done.
Qed.

Section program_only.

Context `{Externals}.

Lemma only_list_entities regex : only is_preview (list_entities regex).
Proof.
  unfold list_entities. apply only_bind; [by apply only_requests_get |].
  intros r. case_decide.
  - apply only_bind; [| intros; apply only_ret].
    apply only_if; [apply only_lift | apply only_ret].
  - apply only_bind; [by apply only_print | intros; apply only_ret].
Qed.

Lemma only_write_to_csv table filename :
  only is_preview (write_to_csv table filename).
Proof.
  unfold write_to_csv.
  apply only_bind; [by apply only_write_text | intros; by apply only_print].
Qed.

Lemma only_plan_rows P entity_data search_regex replace_regex :
  only P (plan_rows entity_data search_regex replace_regex).
Proof.
  unfold plan_rows. apply only_if; [apply only_lift | apply only_ret].
Qed.

Lemma only_load_plan input_filename :
  only is_local (load_plan input_filename).
Proof.
  unfold load_plan. apply only_bind; [by apply only_read_text |].
  intros content. apply only_bind.
  { intros w. exists []. by rewrite app_nil_r. }
  intros rename_data. case_decide.
  - apply only_bind; [by apply only_print | intros; apply only_ret].
  - apply only_fmap, only_lift.
Qed.

Lemma only_build_plan entity_data search_regex replace_regex input_filename :
  only is_local
    (build_plan entity_data search_regex replace_regex input_filename).
Proof.
  unfold build_plan. apply only_if; [apply only_load_plan |].
  apply only_fmap, only_plan_rows.
Qed.

End program_only.

(** * Computations that leave the files alone *)

Section grows.

Lemma grows_ret {A} (a : A) : grows (mret a).
Proof. intros w. split; [exists []; by rewrite app_nil_r | done]. Qed.

Lemma grows_raise {A} e : grows (raise (A:=A) e).
Proof. intros w. split; [exists []; by rewrite app_nil_r | done]. Qed.

Lemma grows_bind {A B} (m : M A) (f : A → M B) :
  grows m → (∀ a, grows (f a)) → grows (m ≫= f).
Proof.
  intros Hm Hf w. destruct (Hm w) as [[new1 Ht1] Hf1].
  unfold mbind, M_bind. destruct (m w) as [[a|e] w1]; simpl in *.
  - destruct (Hf a w1) as [[new2 Ht2] Hf2]. rewrite Hf2, Ht2, Ht1.
    split; [| done]. exists (new1 ++ new2). by rewrite app_assoc.
  - split; [by exists new1 | done].
Qed.

Lemma grows_lift {A} e (x : option A) : grows (lift e x).
Proof. destruct x; [apply grows_ret | apply grows_raise]. Qed.

Lemma grows_emit e : grows (emit e).
Proof. intros w. split; [by exists [e] | done]. Qed.

Lemma grows_input text : grows (input text).
Proof.
  intros w. unfold input. destruct (stdin w); simpl;
    (split; [by exists [Input text] | done]).
Qed.

Lemma grows_ws_recv : grows ws_recv.
Proof.
  intros w. unfold ws_recv. destruct (websocket w) as [[|frame rest]|]; simpl;
    try (split; [exists []; by rewrite app_nil_r | done]).
  split; [by exists [WsRecv frame] | done].
Qed.

Lemma grows_ws_send frame : grows (ws_send frame).
Proof.
  intros w. unfold ws_send. destruct (websocket w) as [[|first rest]|]; simpl;
    try (split; [exists []; by rewrite app_nil_r | done]).
  split; [by exists [WsSend frame] | done].
Qed.

Lemma grows_with_connection {A} url (body : M A) :
  grows body → grows (with_connection url body).
Proof.
  intros Hb w. unfold with_connection. destruct (websocket w); simpl.
  - destruct (Hb (log (WsConnect url) w)) as [[new Ht] Hf].
    destruct (body (log (WsConnect url) w)) as [r w1]. simpl in *.
    rewrite Ht, Hf. split; [| done].
    exists ([WsConnect url] ++ new ++ [WsClose]).
    by rewrite !app_assoc.
  - split; [by exists [WsConnect url] | done].
Qed.

End grows.

Section presenter.

Context `{Externals}.

Lemma grows_report row answer : grows (report row answer).
Proof.
  unfold report. apply grows_bind; [apply grows_lift |]. intros v.
  assert (∀ value key dflt, grows (get_or value key dflt)) as Hget.
  { intros [] ??; try apply grows_raise. apply grows_ret. }
  apply grows_bind; [apply Hget |]. intros success.
  destruct (json_truthy success); [apply grows_emit |].
  apply grows_bind; [apply Hget |]. intros error.
  apply grows_bind; [apply Hget |]. intros message. apply grows_emit.
Qed.

Lemma grows_update_rows index rename_data :
  grows (update_rows index rename_data).
Proof.
  revert index. induction rename_data as [|row rest IH]; intros index.
  - apply grows_ret.
  - simpl. apply grows_bind; [apply grows_ws_send |]. intros _.
    apply grows_bind; [apply grows_emit |]. intros _.
    apply grows_bind; [apply grows_ws_recv |]. intros answer.
    apply grows_bind; [apply grows_emit |]. intros _.
    apply grows_bind; [apply grows_report |]. intros _. apply IH.
Qed.

Lemma grows_rename_entities rename_data : grows (rename_entities rename_data).
Proof.
  unfold rename_entities. apply grows_with_connection.
  apply grows_bind; [apply grows_ws_recv |]. intros ?.
  apply grows_bind; [apply grows_emit |]. intros _.
  apply grows_bind; [apply grows_ws_send |]. intros _.
  apply grows_bind; [apply grows_emit |]. intros _.
  apply grows_bind; [apply grows_ws_recv |]. intros ?.
  apply grows_bind; [apply grows_emit |]. intros _.
  apply grows_update_rows.
Qed.

(** The table of a plan always aligns: its rows have three cells. *)
Lemma align_plan (rename_data : list plan_row) :
  is_Some (align_strings (row_cells <$> rename_data)).
Proof.
  rewrite align_strings_all; [done |].
  apply Forall_forall. intros row ([[f e] n] & -> & _)%list_elem_of_fmap.
  destruct rename_data as [|[[f0 e0] n0] rest]; simpl; lia.
Qed.

(** Lines 132-152 in two steps: show, then ask. *)
Lemma present_shown rename_data replace_regex output_file input_filename w :
  present rename_data replace_regex output_file input_filename w
  = (if requires_confirmation replace_regex input_filename then
       answer ← input prompt;
       if affirmative answer then rename_entities rename_data
       else print "Renaming process aborted."
     else mret ()) (shown rename_data output_file w).
Proof.
  unfold present, shown, preview, requires_confirmation, affirmative.
  destruct (align_plan rename_data) as [aligned ->]. simpl.
  unfold mbind at 1, M_bind at 1. simpl.
  destruct (Py.truthy output_file).
  - unfold write_to_csv, mbind, M_bind, write_text, print, emit, log. simpl.
    rewrite <- !app_assoc. simpl.
    destruct (Py.truthy replace_regex), (Py.truthy input_filename);
      simpl; try done;
      destruct (input prompt _) as [[answer|e] w1]; try done;
      by destruct (bool_decide _).
  - unfold mbind, M_bind, log, emits. simpl.
    destruct (Py.truthy replace_regex), (Py.truthy input_filename);
      simpl; try done;
      destruct (input prompt _) as [[answer|e] w1]; try done;
      by destruct (bool_decide _).
Qed.

End presenter.

Lemma filter_local_ws (new : list event) :
  Forall (λ e, is_local e = true) new →
  List.filter is_ws new = [] ∧ List.filter is_input new = [].
Proof.
  induction 1 as [|e new He _ [IH1 IH2]]; [done |].
  unfold is_local in He. simpl. rewrite IH1, IH2.
  by destruct (is_input e), (is_ws e).
Qed.

Lemma preview_local e : is_preview e = true → is_local e = true.
Proof. by destruct e. Qed.

Section gate.

Context `{Externals}.

Lemma build_plan_local entity_data search_regex replace_regex input_filename
    w r w0 :
  build_plan entity_data search_regex replace_regex input_filename w = (r, w0) →
  stdin w0 = stdin w ∧ websocket w0 = websocket w ∧
  List.filter is_ws (trace w0) = List.filter is_ws (trace w) ∧
  List.filter is_input (trace w0) = List.filter is_input (trace w).
Proof.
  intros Hb.
  destruct (only_build_plan entity_data search_regex replace_regex
              input_filename w) as (new & Ht & Hnew & Hs & Hw).
  rewrite Hb in *. simpl in *. rewrite Ht, !List.filter_app.
  destruct (filter_local_ws new Hnew) as [-> ->].
  by rewrite !app_nil_r.
Qed.

Lemma shown_local rename_data output_file w :
  stdin (shown rename_data output_file w) = stdin w ∧
  websocket (shown rename_data output_file w) = websocket w ∧
  List.filter is_ws (trace (shown rename_data output_file w))
  = List.filter is_ws (trace w) ∧
  List.filter is_input (trace (shown rename_data output_file w))
  = List.filter is_input (trace w).
Proof.
  unfold shown. destruct (Py.truthy output_file); simpl;
    rewrite !List.filter_app; simpl; by rewrite !app_nil_r.
Qed.

Lemma input_answered w answer rest :
  stdin w = answer :: rest → input prompt w = (Ok answer, answered w).
Proof. intros Hs. unfold input, answered, log. by rewrite Hs. Qed.

(** C1, as amended.  When the gate of line 144 asks for confirmation (a
    non-empty replace pattern or a non-empty input file name), the
    program reads one line from standard input.  If that line, lowercased, is neither
    [y] nor [yes], it prints the cancellation message and returns: no
    connection is made and no frame is sent or received.  Only [y] or
    [yes], in any case, continues with the Applier. *)
Theorem declined_confirmation_sends_nothing
    (entity_data : list (string * string))
    (search_regex replace_regex output_file input_filename : option string)
    (rename_data : list plan_row) (answer : string) (rest : list string)
    (w w0 : world) :
  requires_confirmation replace_regex input_filename = true →
  build_plan entity_data search_regex replace_regex input_filename w
  = (Ok (Some rename_data), w0) →
  stdin w = answer :: rest →
  let asked := answered (shown rename_data output_file w0) in
  stdin asked = rest ∧
  List.filter is_input (trace asked)
  = List.filter is_input (trace w) ++ [Input prompt] ∧
  List.filter is_ws (trace asked) = List.filter is_ws (trace w) ∧
  websocket asked = websocket w ∧
  if affirmative answer then
    process_entities entity_data search_regex replace_regex output_file
                     input_filename w
    = rename_entities rename_data asked
  else
    let w' := emits [Print "Renaming process aborted."] asked in
    process_entities entity_data search_regex replace_regex output_file
                     input_filename w
    = (Ok (), w') ∧
    List.filter is_ws (trace w') = List.filter is_ws (trace w) ∧
    websocket w' = websocket w ∧ stdin w' = rest.
Proof.
  intros Hgate Hbuild Hstdin asked.
  destruct (build_plan_local _ _ _ _ _ _ _ Hbuild) as (Hs0 & Hw0 & Hf0 & Hi0).
  destruct (shown_local rename_data output_file w0) as (Hs1 & Hw1 & Hf1 & Hi1).
  assert (stdin (shown rename_data output_file w0) = answer :: rest) as Hs
    by congruence.
  assert (stdin asked = rest) as Hrest.
  { unfold asked, answered. simpl. by rewrite Hs. }
  assert (List.filter is_ws (trace asked) = List.filter is_ws (trace w))
    as Hws.
  { unfold asked, answered. simpl. rewrite List.filter_app. simpl.
    rewrite app_nil_r. congruence. }
  assert (websocket asked = websocket w) as Hsock.
  { unfold asked, answered. simpl. congruence. }
  split; [done |]. split.
  { unfold asked, answered. simpl. rewrite List.filter_app. simpl.
    congruence. }
  split; [done |]. split; [done |].
  assert (process_entities entity_data search_regex replace_regex output_file
            input_filename w
          = (if affirmative answer then rename_entities rename_data
             else print "Renaming process aborted.") asked) as Hrun.
  { unfold process_entities. rewrite (bind_ok _ _ _ _ _ Hbuild).
    rewrite present_shown, Hgate.
    by rewrite (bind_ok _ _ _ _ _ (input_answered _ _ _ Hs)). }
  rewrite Hrun. destruct (affirmative answer); [done |].
  simpl. split; [done |]. split; [| done].
  rewrite List.filter_app. simpl. by rewrite app_nil_r.
Qed.

End gate.

(** C1 as stated fails: with the replace pattern [""] a replace pattern is
    given, yet nothing is asked; the line the operator would type stays
    unread and no cancellation message is printed. *)
Lemma empty_replace_pattern_skips_confirmation :
  let w := Sample.hub ["hello"] ["no"] in
  ∃ w',
    @process_entities Sample.externals [("Kitchen", "light.kitchen_old")]
      (Some "_old") (Some "") None None w = (Ok (), w') ∧
    trace w' = [Print (@preview Sample.externals
                         [("Kitchen", "light.kitchen_old", "")])] ∧
    stdin w' = ["no"].
Proof. intros w. by eexists. Qed.

(** The theorem on a run that builds its plan from a search and a replace
    pattern and is answered [no]. *)
Lemma declined_confirmation_sends_nothing_witness :
  let w := Sample.hub ["hello"] ["no"] in
  let entity_data := [("Kitchen", "light.kitchen_old")] in
  ∃ w',
    @process_entities Sample.externals entity_data (Some "kitchen_old")
      (Some "kitchen_new") None None w = (Ok (), w') ∧
    List.filter is_ws (trace w') = [] ∧ websocket w' = Some ["hello"].
Proof.
  intros w entity_data.
  destruct (@declined_confirmation_sends_nothing Sample.externals
              entity_data (Some "kitchen_old") (Some "kitchen_new") None None
              [("Kitchen", "light.kitchen_old", "light.kitchen_new")]
              "no" [] w w eq_refl eq_refl eq_refl)
    as (_ & _ & _ & _ & Hrun & Hws & Hsock & _).
  eexists. split; [exact Hrun |]. split; [exact Hws | exact Hsock].
Defined.

Section preview.

Context `{Externals}.

Lemma only_present_preview rename_data replace_regex output_file :
  Py.truthy replace_regex = false →
  only is_preview (present rename_data replace_regex output_file None).
Proof.
  intros Hreplace w. rewrite present_shown.
  unfold requires_confirmation. rewrite Hreplace. simpl. unfold shown.
  destruct (Py.truthy output_file); simpl.
  - eexists. split; [done |]. by repeat constructor.
  - eexists. split; [done |]. by repeat constructor.
Qed.

(** C2.  A run with no replace pattern and no input file (absent, or
    given as the empty string) never asks for confirmation and never
    reaches the Applier: whatever it returns, the events it adds are the
    listing call, printed lines and the export (no prompt, no connection,
    no frame), nothing is read from standard input and no frame is taken
    from the hub. *)
Theorem preview_only_never_applies (a : args) (w : world) :
  Py.truthy (replace_regex a) = false → Py.truthy (input_file a) = false →
  ∃ new,
    trace (main a w).2 = trace w ++ new ∧
    Forall (λ e, is_preview e = true) new ∧
    List.filter is_input new = [] ∧ List.filter is_ws new = [] ∧
    stdin (main a w).2 = stdin w ∧ websocket (main a w).2 = websocket w.
Proof.
  intros Hreplace Hinput.
  assert (only is_preview (main a)) as Honly.
  { unfold main. rewrite Hreplace, Hinput. simpl.
    rewrite andb_false_r. destruct (Py.truthy (search_regex a)).
    - apply only_bind; [apply only_list_entities |]. intros entity_data.
      destruct (negb _); [| by apply only_print].
      unfold process_entities. apply only_bind.
      + unfold build_plan. simpl. apply only_fmap, only_plan_rows.
      + intros [rename_data|];
          [by apply only_present_preview | apply only_ret].
    - by apply only_print. }
  destruct (Honly w) as (new & Ht & Hnew & Hs & Hw).
  exists new. repeat split; try done.
  - apply filter_local_ws. eapply Forall_impl; [exact Hnew |].
    apply preview_local.
  - apply filter_local_ws. eapply Forall_impl; [exact Hnew |].
    apply preview_local.
Qed.

End preview.

(** The theorem on the end-to-end scenario: a search for [switch\.] (here
    the literal text [switch.]) and nothing else. *)
Lemma preview_only_never_applies_witness :
  let a := Args None (Some "switch.") None None in
  let w := Sample.hub ["hello"] ["y"] in
  ∃ new,
    trace (@main Sample.externals a w).2 = new ∧
    List.filter is_input new = [] ∧ List.filter is_ws new = [] ∧
    stdin (@main Sample.externals a w).2 = ["y"].
Proof.
  intros a w.
  destruct (@preview_only_never_applies Sample.externals a w eq_refl eq_refl)
    as (new & Ht & _ & Hin & Hws & Hs & _).
  exists new. split; [exact Ht |]. split; [exact Hin |].
  split; [exact Hws | exact Hs].
Defined.

Section export.

Context `{Externals}.

Lemma grows_gate rename_data replace_regex input_filename :
  grows (if requires_confirmation replace_regex input_filename then
           answer ← input prompt;
           if affirmative answer then rename_entities rename_data
           else print "Renaming process aborted."
         else mret ()).
Proof.
  destruct (requires_confirmation _ _); [| apply grows_ret].
  apply grows_bind; [apply grows_input |]. intros answer.
  destruct (affirmative answer);
    [apply grows_rename_entities | apply grows_emit].
Qed.

(** C10.  With an output file, the export is written right after the
    table is printed and before anything is asked: the file holds the
    export (whatever it held before) when the run is a preview, when the
    operator declines, and however the run goes on. *)
Theorem export_written_before_prompt
    (entity_data : list (string * string))
    (search_regex replace_regex input_filename : option string)
    (filename : string) (rename_data : list plan_row) (w w0 : world) :
  filename ≠ "" →
  build_plan entity_data search_regex replace_regex input_filename w
  = (Ok (Some rename_data), w0) →
  let run := process_entities entity_data search_regex replace_regex
                              (Some filename) input_filename w in
  let w1 := shown rename_data (Some filename) w0 in
  trace w1 = trace w0 ++ [Print (preview rename_data);
                          FileWrite filename (export_text rename_data);
                          Print ("(Table written to " +:+ filename +:+ ")")] ∧
  List.filter is_input (trace w1) = List.filter is_input (trace w) ∧
  files w1 = <[filename := export_text rename_data]> (files w0) ∧
  (requires_confirmation replace_regex input_filename = false →
   run = (Ok (), w1)) ∧
  (requires_confirmation replace_regex input_filename = true →
   ∀ answer rest, stdin w = answer :: rest → affirmative answer = false →
     run = (Ok (), emits [Print "Renaming process aborted."] (answered w1))) ∧
  (∃ more, trace run.2 = trace w1 ++ more) ∧
  files run.2 !! filename = Some (export_text rename_data).
Proof.
  intros Hname Hbuild run w1.
  assert (Py.truthy (Some filename) = true) as Htruthy.
  { by destruct filename. }
  destruct (build_plan_local _ _ _ _ _ _ _ Hbuild) as (Hs0 & Hw0 & Hf0 & Hi0).
  destruct (shown_local rename_data (Some filename) w0)
    as (Hs1 & Hw1 & Hf1 & Hi1).
  assert (run
          = (if requires_confirmation replace_regex input_filename then
               answer ← input prompt;
               if affirmative answer then rename_entities rename_data
               else print "Renaming process aborted."
             else mret ()) w1) as Hrun.
  { unfold run, process_entities. rewrite (bind_ok _ _ _ _ _ Hbuild).
    apply present_shown. }
  assert (files w1 = <[filename := export_text rename_data]> (files w0))
    as Hfiles.
  { unfold w1, shown. by rewrite Htruthy. }
  split; [unfold w1, shown; by rewrite Htruthy |].
  split; [fold w1 in Hi1; congruence |].
  split; [done |]. split; [| split].
  - intros Hgate. by rewrite Hrun, Hgate.
  - intros Hgate answer rest Hstdin Hno. rewrite Hrun, Hgate.
    assert (stdin w1 = answer :: rest) as Hs by (unfold w1; congruence).
    rewrite (bind_ok _ _ _ _ _ (input_answered _ _ _ Hs)).
    by rewrite Hno.
  - rewrite Hrun.
    destruct (grows_gate rename_data replace_regex input_filename w1)
      as [Hmore Hkeep].
    split; [done |]. rewrite Hkeep, Hfiles. apply lookup_insert_eq.
Qed.

End export.

(** The theorem on a preview-only run with an output file. *)
Lemma export_written_before_prompt_witness :
  let w := Sample.hub [] [] in
  let entity_data := [("Kitchen", "light.kitchen_old")] in
  ∃ w',
    @process_entities Sample.externals entity_data (Some "kitchen")
      None (Some "plan.csv") None w = (Ok (), w') ∧
    files w' !! "plan.csv"
    = Some (export_text [("Kitchen", "light.kitchen_old", "")]).
Proof.
  intros w entity_data.
  destruct (@export_written_before_prompt Sample.externals
              entity_data (Some "kitchen") None None "plan.csv"
              [("Kitchen", "light.kitchen_old", "")] w w
              ltac:(discriminate) eq_refl)
    as (_ & _ & _ & Hrun & _ & _ & Hfile).
  eexists. split; [exact (Hrun eq_refl) | exact Hfile].
Defined.

Section command_line.

Context `{Externals}.

(** C9, as amended.  With a non-empty [--search] and a non-empty
    [--input-file] the program prints an error and does nothing else;
    with a non-empty [--replace] and no non-empty [--search] it prints an
    error and does nothing else; otherwise, with neither a non-empty
    [--search] nor a non-empty [--input-file], it prints the usage help
    and does nothing else.  In the three cases the hub is not called. *)
Theorem main_rejects_bad_arguments (a : args) (w : world) :
  (Py.truthy (search_regex a) = true → Py.truthy (input_file a) = true →
   main a w
   = (Ok (),
      emits [Print "Error: --search and --input-file cannot be used together."] w)) ∧
  (Py.truthy (replace_regex a) = true → Py.truthy (search_regex a) = false →
   main a w = (Ok (), emits [Print "Error: --replace requires --search."] w)) ∧
  (Py.truthy (replace_regex a) = false → Py.truthy (search_regex a) = false →
   Py.truthy (input_file a) = false →
   main a w = (Ok (), emits [Print help_text] w)) ∧
  (∀ line, List.filter is_remote (trace (emits [Print line] w))
           = List.filter is_remote (trace w)).
Proof.
  unfold main. split; [| split; [| split]].
  - by intros -> ->.
  - by intros -> ->.
  - by intros -> -> ->.
  - intros line. simpl. rewrite List.filter_app. simpl. apply app_nil_r.
Qed.

End command_line.

(** C9 as stated fails: [--search ""] together with [--input-file plan.csv]
    supplies both options, yet no error is printed, the file is processed
    and, once confirmed, the update is sent. *)
Lemma main_empty_search_with_input_file :
  let a := Args (Some "plan.csv") (Some "") None None in
  ∃ w', @main Sample.externals a hub_with_plan_file = (Ok (), w') ∧
        List.filter is_ws (trace w')
        = [WsConnect "ws://hub.local:8123/api/websocket";
           WsRecv "hello";
           WsSend (Sample.show_dict [("type", JStr "auth");
                                     ("access_token", JStr "token")]);
           WsRecv "auth_ok";
           WsSend (Sample.show_dict
                     [("id", JNum 1);
                      ("type", JStr "config/entity_registry/update");
                      ("entity_id", JStr "light.kitchen_old");
                      ("new_entity_id", JStr "light.kitchen_new");
                      ("name", JStr "Kitchen")]);
           WsRecv Sample.accepted;
           WsClose] ∧
        List.filter (λ e, bool_decide (e = Print "Error: --search and --input-file cannot be used together."))
                    (trace w') = [].
Proof. intros a. eexists. split; [vm_compute; reflexivity |]. by vm_compute. Qed.

(** The amended theorem on three command lines. *)
Lemma main_rejects_bad_arguments_witness :
  let w := Sample.hub [] [] in
  @main Sample.externals (Args (Some "plan.csv") (Some "light") None None) w
  = (Ok (), emits [Print "Error: --search and --input-file cannot be used together."] w) ∧
  @main Sample.externals (Args None None (Some "x") None) w
  = (Ok (), emits [Print "Error: --replace requires --search."] w) ∧
  @main Sample.externals (Args None None None None) w
  = (Ok (), emits [Print (@help_text Sample.externals)] w).
Proof.
  intros w.
  destruct (@main_rejects_bad_arguments Sample.externals
              (Args (Some "plan.csv") (Some "light") None None) w)
    as (H1 & _).
  destruct (@main_rejects_bad_arguments Sample.externals
              (Args None None (Some "x") None) w) as (_ & H2 & _).
  destruct (@main_rejects_bad_arguments Sample.externals
              (Args None None None None) w) as (_ & _ & H3 & _).
  split; [exact (H1 eq_refl eq_refl) |].
  split; [exact (H2 eq_refl eq_refl) | exact (H3 eq_refl eq_refl eq_refl)].
Defined.

Section planner.

Context `{Externals}.

Lemma substitute_ok search_regex replace_regex entity_data :
  Forall (λ p, is_Some (re_sub search_regex replace_regex p.2)) entity_data →
  ∃ rename_data,
    substitute (Some search_regex) replace_regex entity_data = Some rename_data ∧
    Forall2 (λ p row, row.1.1 = p.1 ∧ row.1.2 = p.2 ∧
                      re_sub search_regex replace_regex p.2 = Some row.2)
            entity_data rename_data.
Proof.
  induction 1 as [|[name id] l [new Hnew] _ (rows & Hrows & IH)].
  - by exists [].
  - exists ((name, id, new) :: rows). simpl in *.
    rewrite Hnew, Hrows. split; [done |]. by constructor.
Qed.

(** C3, as amended.  With a non-empty replace pattern every record gets
    as new identifier what [re.sub] makes of its identifier, the display
    name and the identifier kept; with no replace pattern, or an empty
    one, every new identifier is empty.  For [light.kitchen_old], search
    [kitchen_old] and replace [kitchen_new] the new identifier is
    [light.kitchen_new]. *)
Theorem planned_new_id (entity_data : list (string * string)) (w : world) :
  (∀ search_regex replace_regex : string,
     replace_regex ≠ "" →
     Forall (λ p, is_Some (re_sub search_regex replace_regex p.2))
            entity_data →
     ∃ rename_data,
       plan_rows entity_data (Some search_regex) (Some replace_regex) w
       = (Ok rename_data, w) ∧
       Forall2 (λ p row, row.1.1 = p.1 ∧ row.1.2 = p.2 ∧
                         re_sub search_regex replace_regex p.2 = Some row.2)
               entity_data rename_data) ∧
  (∀ search_regex replace_regex : option string,
     replace_regex = None ∨ replace_regex = Some "" →
     plan_rows entity_data search_regex replace_regex w
     = (Ok ((λ p, (p.1, p.2, "")) <$> entity_data), w)) ∧
  @plan_rows Sample.externals [("", "light.kitchen_old")]
    (Some "kitchen_old") (Some "kitchen_new") w
  = (Ok [("", "light.kitchen_old", "light.kitchen_new")], w).
Proof.
  split; [| split; [| done]].
  - intros search_regex replace_regex Hne Hvalid. unfold plan_rows.
    assert (Py.truthy (Some replace_regex) = true) as ->
      by (by destruct replace_regex).
    destruct (substitute_ok _ _ _ Hvalid) as (rows & Hrows & Hall).
    exists rows. simpl. by rewrite Hrows.
  - intros search_regex replace_regex Hnone. unfold plan_rows.
    assert (Py.truthy replace_regex = false) as ->
      by (by destruct Hnone as [-> | ->]).
    unfold mret, M_ret. do 2 f_equal. apply list_fmap_ext.
    by intros i [name id] _.
Qed.

End planner.

(** C3 as stated fails: the replace pattern [""] is given, and the new
    identifier is left empty although the substitution gives
    [light.kitchen]. *)
Lemma empty_replace_pattern_is_ignored :
  let w := Sample.hub [] [] in
  @plan_rows Sample.externals [("Kitchen", "light.kitchen_old")]
    (Some "_old") (Some "") w
  = (Ok [("Kitchen", "light.kitchen_old", "")], w) ∧
  @re_sub Sample.externals "_old" "" "light.kitchen_old" = Some "light.kitchen".
Proof. done. Qed.

(** The amended theorem on the example of the specification. *)
Lemma planned_new_id_witness :
  let w := Sample.hub [] [] in
  ∃ rename_data,
    @plan_rows Sample.externals [("", "light.kitchen_old")]
      (Some "kitchen_old") (Some "kitchen_new") w = (Ok rename_data, w) ∧
    Forall2 (λ p row, row.1.1 = p.1 ∧ row.1.2 = p.2 ∧
                      @re_sub Sample.externals "kitchen_old" "kitchen_new" p.2
                      = Some row.2)
            [("", "light.kitchen_old")] rename_data.
Proof.
  intros w.
  exact (proj1 (@planned_new_id Sample.externals [("", "light.kitchen_old")] w)
               "kitchen_old" "kitchen_new" ltac:(discriminate)
               ltac:(repeat constructor; by eexists)).
Defined.

Section applier.

Context `{Externals}.

Lemma report_ok row answer w :
  answer_ok answer = true →
  report row answer w = (Ok (), emits [Print (outcome row answer)] w).
Proof.
  unfold answer_ok, report, outcome, mbind, M_bind, lift.
  destruct (json_loads answer) as [[| | | | |members]|]; try done.
  simpl. destruct (dict_get members "success") as [success|]; simpl.
  - destruct (json_truthy success); simpl; [done |].
    by destruct (dict_get members "error") as [[| | | | |error]|].
  - by destruct (dict_get members "error") as [[| | | | |error]|].
Qed.

Lemma update_rows_run rows : ∀ index answers more w,
  length answers = length rows →
  Forall (λ a, answer_ok a = true) answers →
  websocket w = Some (answers ++ more) →
  update_rows index rows w
  = (Ok (),
     World (stdin w) (files w) (rest_api w) (Some more)
           (trace w ++ update_events index rows answers)).
Proof.
  induction rows as [|row rows IH]; intros index answers more w Hlen Hok Hw.
  - destruct answers; [| done]. simpl in *. rewrite app_nil_r.
    destruct w. simpl in *. by subst.
  - destruct answers as [|answer answers]; [done |].
    inversion Hok as [|? ? Hanswer Hrest]; subst.
    simpl in Hlen. injection Hlen as Hlen.
    cbn [update_rows update_events].
    unfold mbind, M_bind, ws_send, print, emit, ws_recv, log. simpl.
    rewrite Hw. simpl. rewrite (report_ok _ _ _ Hanswer). simpl.
    rewrite (IH (index + 1)%Z answers more) by done. simpl.
    by rewrite <- !app_assoc.
Qed.

Lemma rename_entities_run rows answers greeting auth_result more w :
  length answers = length rows →
  Forall (λ a, answer_ok a = true) answers →
  websocket w = Some (greeting :: auth_result :: answers ++ more) →
  rename_entities rows w
  = (Ok (),
     World (stdin w) (files w) (rest_api w) (Some more)
           (trace w ++ [WsConnect ha_url;
                        WsRecv greeting; Print ("<<< " +:+ greeting);
                        WsSend auth_msg; Print (">>> " +:+ auth_msg);
                        WsRecv auth_result; Print ("<<< " +:+ auth_result)]
                    ++ update_events 1 rows answers ++ [WsClose])).
Proof.
  intros Hlen Hok Hw. unfold rename_entities, with_connection.
  rewrite Hw.
  unfold mbind, M_bind, ws_send, print, emit, ws_recv, log. simpl.
  rewrite Hw. simpl.
  rewrite (update_rows_run rows 1 answers more) by done. simpl.
  unfold log. simpl. by rewrite <- !app_assoc.
Qed.

Lemma update_events_exchange rows : ∀ index answers,
  List.filter is_ws (update_events index rows answers)
  = exchange index rows answers.
Proof.
  induction rows as [|row rows IH]; intros index [|answer answers]; try done.
  simpl. by rewrite IH.
Qed.

Lemma exchange_lookup rows : ∀ index answers i row answer,
  rows !! i = Some row → answers !! i = Some answer →
  exchange index rows answers !! (2 * i)
  = Some (WsSend (json_dumps
                    (entity_registry_update_msg (index + Z.of_nat i) row))) ∧
  exchange index rows answers !! (2 * i + 1) = Some (WsRecv answer).
Proof.
  induction rows as [|row0 rows IH]; intros index answers i row answer;
    [done |].
  destruct answers as [|answer0 answers]; [done |].
  destruct i as [|i].
  - simpl. intros [= ->] [= ->]. by rewrite Z.add_0_r.
  - intros Hrow Hanswer.
    destruct (IH (index + 1)%Z answers i row answer Hrow Hanswer)
      as [Hsend Hrecv].
    replace (2 * S i) with (S (S (2 * i))) by lia.
    replace (S (S (2 * i)) + 1) with (S (S (2 * i + 1))) by lia.
    replace (index + Z.of_nat (S i))%Z with (index + 1 + Z.of_nat i)%Z
      by lia.
    split; [exact Hsend | exact Hrecv].
Qed.

(** C4.  Once connected and authenticated, the Applier sends one update
    request per row of the plan, in the order of the plan, and reads one
    answer after each request before it goes on; the request of the
    [i]-th row carries the id [i] (counted from 1), the operation, the
    row's current identifier, and the new identifier and the name exactly
    when these are non-empty.  An answer that rejects a row is reported
    and the rows after it are processed all the same. *)
Theorem one_update_frame_per_row
    (rows : list plan_row) (answers : list string)
    (greeting auth_result : string) (more : list string) (w : world) :
  length answers = length rows →
  Forall (λ a, answer_ok a = true) answers →
  websocket w = Some (greeting :: auth_result :: answers ++ more) →
  ∃ new w',
    rename_entities rows w = (Ok (), w') ∧
    trace w' = trace w ++ new ∧ websocket w' = Some more ∧
    List.filter is_ws new
    = [WsConnect ha_url; WsRecv greeting; WsSend auth_msg; WsRecv auth_result]
      ++ exchange 1 rows answers ++ [WsClose] ∧
    length (exchange 1 rows answers) = 2 * length rows ∧
    (∀ i row answer,
       rows !! i = Some row → answers !! i = Some answer →
       exchange 1 rows answers !! (2 * i)
       = Some (WsSend (json_dumps
                         (entity_registry_update_msg (1 + Z.of_nat i) row))) ∧
       exchange 1 rows answers !! (2 * i + 1) = Some (WsRecv answer)) ∧
    (∀ index friendly_name entity_id new_entity_id,
       let msg := entity_registry_update_msg
                    index (friendly_name, entity_id, new_entity_id) in
       dict_get msg "id" = Some (JNum index) ∧
       dict_get msg "type" = Some (JStr "config/entity_registry/update") ∧
       dict_get msg "entity_id" = Some (JStr entity_id) ∧
       dict_get msg "new_entity_id"
       = (if Py.nonempty new_entity_id then Some (JStr new_entity_id)
          else None) ∧
       dict_get msg "name"
       = (if Py.nonempty friendly_name then Some (JStr friendly_name)
          else None)).
Proof.
  intros Hlen Hok Hw. eexists _, _.
  split; [by apply rename_entities_run |].
  split; [done |]. split; [done |]. split; [| split; [| split]].
  - rewrite !List.filter_app, update_events_exchange. done.
  - clear Hok Hw. revert answers Hlen. generalize 1%Z.
    induction rows as [|row rows IH]; intros index [|answer answers] Hlen;
      try done.
    simpl in *. rewrite (IH (index + 1)%Z answers) by lia. lia.
  - intros i row answer. apply exchange_lookup.
  - intros index friendly_name entity_id new_entity_id. simpl.
    by destruct (Py.nonempty new_entity_id), (Py.nonempty friendly_name).
Qed.

End applier.

(** The theorem on a plan of two rows whose first is rejected by the hub:
    the second row is sent all the same. *)
Lemma one_update_frame_per_row_witness :
  let rows := [("Kitchen", "light.kitchen_old", "light.kitchen_new");
               ("", "switch.fan", "switch.ceiling_fan")] in
  let w := Sample.hub ["hello"; "auth_ok"; Sample.rejected; Sample.accepted] [] in
  ∃ new w',
    @rename_entities Sample.externals rows w = (Ok (), w') ∧
    trace w' = trace w ++ new ∧
    List.filter is_ws new
    = [WsConnect (@ha_url Sample.externals); WsRecv "hello";
       WsSend (@auth_msg Sample.externals); WsRecv "auth_ok"]
      ++ @exchange Sample.externals 1 rows [Sample.rejected; Sample.accepted]
      ++ [WsClose].
Proof.
  intros rows w.
  destruct (@one_update_frame_per_row Sample.externals rows
              [Sample.rejected; Sample.accepted] "hello" "auth_ok" [] w
              eq_refl ltac:(by repeat constructor) eq_refl)
    as (new & w' & Hrun & Ht & _ & Hws & _).
  exists new, w'. split; [exact Hrun |]. split; [exact Ht | exact Hws].
Defined.

Section noop_rows.

Context `{Externals}.

Lemma align_cell_unmarked table j s :
  Str.contains alignment_char s = false → align_cell table j s = s.
Proof.
  intros Hs. unfold align_cell. case_decide; [done |].
  by apply align_string_unmarked.
Qed.

Lemma align_cell_padded table j s :
  ∃ k, align_cell table j s = Str.spaces k +:+ s.
Proof.
  destruct (Str.contains alignment_char s) eqn:Hs.
  - unfold align_cell. case_decide; [by exists 0 |].
    destruct (align_string_marked (marker_column j table) s Hs)
      as (_ & _ & _ & Heq & _).
    eexists. exact Heq.
  - exists 0. by rewrite align_cell_unmarked.
Qed.



End noop_rows.


Section lister_claim.

Context `{Externals}.

(** C6.  When the listing succeeds, [list_entities] with a pattern
    returns exactly the (display name, identifier) pairs whose identifier
    the pattern is found in by [re.search]: they are taken in the order
    of the listing and then sorted by display name, ascending, by code
    point (so capitals come before small letters), pairs with the same
    display name keeping the order they had. *)
Theorem list_entities_filters_then_sorts
    (pattern : string) (r : response) (w : world) :
  (∀ s, re_search "" s = Some true) →
  (∀ id, is_Some (re_search pattern id)) →
  rest_api w = Some r → status_code r = 200%Z →
  ∃ result w',
    list_entities (Some pattern) w = (Ok result, w') ∧
    result = Py.sorted fst (matching pattern (listed r)) ∧
    matching pattern (listed r) `sublist_of` listed r ∧
    (∀ p, p ∈ result ↔ p ∈ listed r ∧ re_search pattern p.2 = Some true) ∧
    result ≡ₚ matching pattern (listed r) ∧
    StronglySorted (Py.key_le fst) result ∧
    (∀ name, filter (λ p, p.1 = name) result
             = filter (λ p, p.1 = name) (matching pattern (listed r))) ∧
    Py.key_le id "Zebra" "apple" ∧ ¬ Py.key_le id "apple" "Zebra".
Proof.
  intros Hempty Hvalid Hw Hr. eexists _, _.
  split; [by apply list_entities_ok |]. split; [done |].
  assert (∀ l, matching pattern l `sublist_of` l) as Hsub.
  { induction l as [|p l IH]; simpl; [done |].
    destruct (bool_decide _); by constructor. }
  split; [apply Hsub |]. split; [| split; [| split; [| split]]].
  - intros p. rewrite sorted_Permutation. unfold matching.
    rewrite list_elem_of_In, filter_In, <- list_elem_of_In.
    by rewrite bool_decide_eq_true.
  - apply sorted_Permutation.
  - apply sorted_StronglySorted.
  - intros name. apply sorted_stable.
  - done.
Qed.

End lister_claim.

(** The theorem on a hub with three entities and the pattern [kitchen],
    which is found inside two identifiers. *)
Lemma list_entities_filters_then_sorts_witness :
  let w := Sample.hub [] [] in
  ∃ w',
    @list_entities Sample.externals (Some "kitchen") w
    = (Ok [("Kitchen", "light.kitchen_old");
           ("Kitchen temperature", "sensor.kitchen_old_temp")], w').
Proof.
  intros w.
  assert (∀ s, @re_search Sample.externals "" s = Some true) as Hempty.
  { intros s. simpl. by destruct s. }
  destruct (@list_entities_filters_then_sorts Sample.externals "kitchen"
              _ w Hempty ltac:(by eexists) eq_refl eq_refl)
    as (result & w' & Hrun & -> & _).
  exists w'. exact Hrun.
Defined.

(** * Export and re-read *)

(** C7 (a plan exported and read back is the same plan) fails on the
    code where a cell contains a carriage return.  The plan of one row
    [name_with_cr, light.living_room, (empty)] is exported by a preview run
    with [--output-file plan.csv]; read back through
    [--input-file plan.csv] it has the display name [name_with_lf].  The
    writer opens the file with [newline=""], the reader does not, so the
    carriage return inside the quoted field arrives as a line feed. *)
Theorem export_reread_changes_carriage_return :
  let first := Args None (Some "light") None (Some "plan.csv") in
  ∃ w1 w2,
    @main Sample.externals first hub_with_cr = (Ok (), w1) ∧
    files w1 !! "plan.csv"
    = Some (export_text [(name_with_cr, "light.living_room", "")]) ∧
    load_plan "plan.csv" w1
    = (Ok (Some [(name_with_lf, "light.living_room", "")]), w2) ∧
    name_with_lf ≠ name_with_cr.
Proof.
  intros first. eexists _, _.
  split; [vm_compute; reflexivity |].
  split; [by vm_compute |]. split; [vm_compute; reflexivity | done].
Qed.

(** X1.  Without carriage returns, and with no cell beyond the field limit
    of the csv reader (131072 characters), the round trip does hold: a
    plan exported and read back is the same plan. *)
Lemma export_reread (rename_data : list plan_row) (name : string) (w : world) :
  plan_cr_free rename_data → plan_fits rename_data → rename_data ≠ [] →
  files w !! name = Some (export_text rename_data) →
  load_plan name w = (Ok (Some rename_data), emits [FileRead name] w).
Proof. apply load_plan_export. Qed.

(** The round trip on a plan of one row. *)
Lemma export_reread_witness :
  load_plan "plan.csv" hub_with_plan_file
  = (Ok (Some one_row_plan), emits [FileRead "plan.csv"] hub_with_plan_file).
Proof.
  apply export_reread.
  - by repeat constructor.
  - repeat constructor; by vm_compute.
  - done.
  - done.
Defined.

(** * Alignment: when it fails, and what a second pass does *)

Lemma column_data_None c (table : list (list string)) :
  column_data c table = None ↔ Exists (λ row, length row ≤ c) table.
Proof.
  unfold column_data. rewrite eq_None_not_Some, mapM_is_Some. split.
  - intros Hsome%not_Forall_Exists; [| intros row; apply _].
    eapply Exists_impl; [exact Hsome |]. intros row. simpl.
    rewrite lookup_lt_is_Some. lia.
  - intros Hshort Hall. apply Exists_exists in Hshort as (row & Hin & Hrow).
    rewrite Forall_forall in Hall. specialize (Hall row Hin). simpl in Hall.
    apply lookup_lt_is_Some in Hall. lia.
Qed.

Lemma align_columns_short columns : ∀ table : list (list string),
  Exists (λ row, Exists (λ c, length row ≤ c) columns) table →
  align_columns columns table = None.
Proof.
  induction columns as [|c rest IH]; intros table Hshort.
  - apply Exists_exists in Hshort as (row & _ & Hrow). by inversion Hrow.
  - simpl. destruct (decide (Forall (λ row, c < length row) table)) as [Hw|Hw].
    + rewrite align_column_all by done. simpl. apply IH.
      unfold align_all. apply Exists_fmap.
      apply Exists_exists in Hshort as (row & Hin & Hrow).
      apply Exists_exists. exists row. split; [done |]. simpl.
      rewrite Forall_forall in Hw. specialize (Hw row Hin).
      apply Exists_cons in Hrow as [Hrow | Hrow]; [lia |].
      eapply Exists_impl; [exact Hrow |]. intros c'. simpl.
      by rewrite length_imap.
    + apply not_Forall_Exists in Hw; [| intros row; apply _].
      assert (column_data c table = None) as Hnone.
      { apply column_data_None. eapply Exists_impl; [exact Hw |].
        intros row. simpl. lia. }
      unfold align_column. by rewrite Hnone.
Qed.

(** X2.  [align_strings] raises [IndexError] exactly when some row has
    fewer cells than the first row; rows with more cells are accepted. *)
Theorem align_strings_fails_iff_short_row (table : list (list string)) :
  align_strings table = None
  ↔ Exists (λ row, length row < length (default [] (head table))) table.
Proof.
  split.
  - intros Hnone.
    destruct (decide (Forall (λ row, length (default [] (head table))
                                      ≤ length row) table)) as [Hw|Hw].
    + by rewrite align_strings_all in Hnone.
    + apply not_Forall_Exists in Hw; [| intros row; apply _].
      eapply Exists_impl; [exact Hw |]. intros row. simpl. lia.
  - intros Hshort. destruct table as [|row0 table].
    + by inversion Hshort.
    + unfold align_strings. apply align_columns_short.
      eapply Exists_impl; [exact Hshort |]. intros row Hrow. simpl in *.
      apply Exists_exists. exists (length row). split; [| done].
      apply elem_of_seq. lia.
Qed.

Lemma contains_align_cell table j s :
  Str.contains alignment_char (align_cell table j s)
  = Str.contains alignment_char s.
Proof.
  destruct (align_cell_padded table j s) as [k ->].
  by rewrite contains_app, spaces_contains.
Qed.

Lemma cells_align_all_in j columns table0 (table : list (list string)) :
  j ∈ columns →
  cells j (align_all columns table0 table)
  = align_cell table0 j <$> cells j table.
Proof.
  intros Hj. unfold cells, align_all.
  induction table as [|row table IH]; [done |].
  cbn [fmap list_fmap omap list_omap].
  rewrite list_lookup_imap.
  fold (@fmap list _ _ _
    (λ row : list string,
       imap (λ j value,
               if decide (j ∈ columns) then align_cell table0 j value else value)
            row) table).
  fold (omap (M:=list) (λ row : list string, row !! j)).
  rewrite IH. destruct (row !! j); simpl; [| done].
  by rewrite decide_True.
Qed.

Lemma filter_fmap_same {A} (f : A → bool) (g : A → A) (l : list A) :
  (∀ x, f (g x) = f x) → List.filter f (g <$> l) = g <$> List.filter f l.
Proof.
  intros Hfg. induction l as [|x l IH]; [done |].
  change (g <$> x :: l) with (g x :: (g <$> l)).
  cbn [List.filter]. rewrite Hfg, IH. by destruct (f x).
Qed.

Lemma marked_align_all j columns (table0 table : list (list string)) :
  j ∈ columns →
  marked j (align_all columns table0 table)
  = align_cell table0 j <$> marked j table.
Proof.
  intros Hj. unfold marked. rewrite cells_align_all_in by done.
  apply filter_fmap_same. intros s. apply contains_align_cell.
Qed.

Lemma max_list_constant (m : nat) (l : list nat) :
  l ≠ [] → Forall (λ n, n = m) l → max_list l = m.
Proof.
  intros Hne Hall. induction Hall as [|n l -> _ IH]; [done |].
  simpl. destruct l as [|n' l]; [simpl; lia |].
  rewrite IH by done. lia.
Qed.

Lemma prefix_len_align_cell table j s :
  s ∈ marked j table →
  prefix_len (align_cell table j s) = marker_column j table.
Proof.
  intros Hin. unfold align_cell.
  rewrite decide_False by (by destruct (marked j table); [inversion Hin |]).
  assert (Str.contains alignment_char s = true) as Hdot.
  { unfold marked in Hin. by apply list_elem_of_In, filter_In in Hin as [_ ?]. }
  destruct (align_string_marked (marker_column j table) s Hdot)
    as (_ & _ & _ & _ & ->).
  assert (prefix_len s ≤ marker_column j table); [| lia].
  unfold marker_column. apply max_list_elem_of_le.
  by apply list_elem_of_fmap_2.
Qed.

Lemma marker_column_align_all j columns (table : list (list string)) :
  j ∈ columns → marked j table ≠ [] →
  marker_column j (align_all columns table table) = marker_column j table.
Proof.
  intros Hj Hne. unfold marker_column at 1.
  rewrite marked_align_all by done. rewrite <- list_fmap_compose.
  apply max_list_constant.
  - by destruct (marked j table).
  - apply Forall_fmap, Forall_forall. intros s Hs. simpl.
    by apply prefix_len_align_cell.
Qed.

Lemma align_string_at_width m s :
  Str.contains alignment_char s = true → prefix_len s = m →
  align_string m s = s.
Proof.
  intros Hdot Hlen.
  destruct (align_string_marked m s Hdot) as (_ & _ & _ & -> & _).
  by rewrite Hlen, Nat.sub_diag.
Qed.

(** A cell of an aligned column is not changed by aligning the column
    again. *)
Lemma align_cell_again j columns (table : list (list string)) s :
  j ∈ columns → s ∈ cells j table →
  align_cell (align_all columns table table) j (align_cell table j s)
  = align_cell table j s.
Proof.
  intros Hj Hs.
  destruct (decide (marked j table = [])) as [Hnone|Hsome].
  - unfold align_cell at 1. rewrite marked_align_all, Hnone by done.
    by rewrite decide_True.
  - destruct (Str.contains alignment_char s) eqn:Hdot.
    + assert (s ∈ marked j table) as Hm.
      { unfold marked. apply list_elem_of_In, filter_In. split; [| done].
        by apply list_elem_of_In. }
      unfold align_cell at 1. rewrite marked_align_all by done.
      rewrite decide_False by (by destruct (marked j table)).
      rewrite marker_column_align_all by done.
      apply align_string_at_width.
      * by rewrite contains_align_cell.
      * by apply prefix_len_align_cell.
    + rewrite (align_cell_unmarked table j s) by done.
      by apply align_cell_unmarked.
Qed.

Lemma align_all_again columns (table : list (list string)) :
  align_all columns (align_all columns table table)
            (align_all columns table table)
  = align_all columns table table.
Proof.
  apply list_eq. intros i. rewrite !align_all_row.
  destruct (table !! i) as [row|] eqn:Hrow; simpl; [| done]. f_equal.
  apply list_eq. intros j. rewrite !list_lookup_imap.
  destruct (row !! j) as [s|] eqn:Hs; simpl; [| done]. f_equal.
  case_decide as Hj; [| done]. apply align_cell_again; [done |].
  unfold cells. apply list_elem_of_omap. exists row.
  split; [by eapply list_elem_of_lookup_2 | done].
Qed.

(** X3.  Aligning is idempotent: a table that [align_strings] returned is
    returned unchanged by a second pass. *)
Theorem align_strings_idempotent (table table' : list (list string)) :
  align_strings table = Some table' → align_strings table' = Some table'.
Proof.
  intros Haligned.
  assert (Forall (λ row, length (default [] (head table)) ≤ length row) table)
    as Hwide.
  { destruct (decide (Forall (λ row, length (default [] (head table))
                                      ≤ length row) table)) as [Hw|Hw];
      [done |].
    apply not_Forall_Exists in Hw; [| intros row; apply _].
    assert (align_strings table = None) as Hnone; [| congruence].
    destruct table as [|row0 table]; [by inversion Hw |].
    unfold align_strings. apply align_columns_short.
    eapply Exists_impl; [exact Hw |]. intros row Hrow. simpl in *.
    apply Exists_exists. exists (length row). split; [| done].
    apply elem_of_seq. lia. }
  rewrite align_strings_all in Haligned by done.
  injection Haligned as <-.
  set (n := length (default [] (head table))) in *.
  assert (length (default [] (head (align_all (seq 0 n) table table))) = n)
    as Hhead.
  { unfold n. destruct table as [|row0 table]; [done |]. simpl.
    apply length_imap. }
  rewrite align_strings_all.
  - rewrite Hhead. f_equal. apply align_all_again.
  - rewrite Hhead. by apply (align_all_wide _ _ _ (λ m, n ≤ m)).
Qed.

(** The theorem on the column of the specification. *)
Lemma align_strings_idempotent_witness :
  align_strings [["  a.bc"]; ["abc.d"]; ["x"]]
  = Some [["  a.bc"]; ["abc.d"]; ["x"]].
Proof.
  exact (align_strings_idempotent [["a.bc"]; ["abc.d"]; ["x"]] _ eq_refl).
Defined.

(** * Computations that never record some kind of event *)

Section avoids.

Context {P : event → bool}.

Lemma avoids_ret {A} (a : A) : avoids P (mret a).
Proof. by intros w. Qed.

Lemma avoids_raise {A} e : avoids P (raise (A:=A) e).
Proof. by intros w. Qed.

Lemma avoids_bind {A B} (m : M A) (f : A → M B) :
  avoids P m → (∀ a, avoids P (f a)) → avoids P (m ≫= f).
Proof.
  intros Hm Hf w. specialize (Hm w). unfold mbind, M_bind.
  destruct (m w) as [[a|e] w1]; simpl in *; [| done].
  by rewrite Hf.
Qed.

Lemma avoids_fmap {A B} (g : A → B) (m : M A) :
  avoids P m → avoids P (g <$> m).
Proof. intros Hm. apply avoids_bind; [done |]. intros a. apply avoids_ret. Qed.

Lemma avoids_lift {A} e (x : option A) : avoids P (lift e x).
Proof. destruct x; [apply avoids_ret | apply avoids_raise]. Qed.

Lemma avoids_emit e : P e = false → avoids P (emit e).
Proof.
  intros He w. simpl. rewrite List.filter_app. simpl. rewrite He.
  apply app_nil_r.
Qed.

Lemma avoids_input text : P (Input text) = false → avoids P (input text).
Proof.
  intros He w. unfold input. destruct (stdin w); simpl;
    rewrite List.filter_app; simpl; rewrite He; apply app_nil_r.
Qed.

Lemma avoids_requests_get url :
  P (HttpGet url) = false → avoids P (requests_get url).
Proof.
  intros He w. unfold requests_get. destruct (rest_api w); simpl;
    rewrite List.filter_app; simpl; rewrite He; apply app_nil_r.
Qed.

Lemma avoids_read_text name :
  P (FileRead name) = false → avoids P (read_text name).
Proof.
  intros He w. unfold read_text. destruct (files w !! name); simpl; [| done].
  rewrite List.filter_app. simpl. rewrite He. apply app_nil_r.
Qed.

Lemma avoids_write_text name content :
  P (FileWrite name content) = false → avoids P (write_text name content).
Proof.
  intros He w. simpl. rewrite List.filter_app. simpl. rewrite He.
  apply app_nil_r.
Qed.

Lemma avoids_ws_send frame : P (WsSend frame) = false → avoids P (ws_send frame).
Proof.
  intros He w. unfold ws_send.
  destruct (websocket w) as [[|first rest]|]; simpl; try done.
  rewrite List.filter_app. simpl. rewrite He. apply app_nil_r.
Qed.

Lemma avoids_ws_recv : (∀ frame, P (WsRecv frame) = false) → avoids P ws_recv.
Proof.
  intros He w. unfold ws_recv.
  destruct (websocket w) as [[|frame rest]|]; simpl; try done.
  rewrite List.filter_app. simpl. rewrite He. apply app_nil_r.
Qed.

Lemma avoids_with_connection {A} url (body : M A) :
  P (WsConnect url) = false → P WsClose = false →
  avoids P body → avoids P (with_connection url body).
Proof.
  intros Hopen Hclose Hbody w. unfold with_connection.
  destruct (websocket w); simpl.
  - specialize (Hbody (log (WsConnect url) w)).
    destruct (body (log (WsConnect url) w)) as [r w1]. simpl in *.
    rewrite List.filter_app, Hbody, List.filter_app. simpl.
    rewrite Hopen, Hclose. by rewrite !app_nil_r.
  - rewrite List.filter_app. simpl. rewrite Hopen. apply app_nil_r.
Qed.

End avoids.

(** * More computations that leave the files alone *)

Lemma grows_requests_get url : grows (requests_get url).
Proof.
  intros w. unfold requests_get. destruct (rest_api w); simpl;
    (split; [by exists [HttpGet url] | done]).
Qed.

Lemma grows_read_text name : grows (read_text name).
Proof.
  intros w. unfold read_text. destruct (files w !! name); simpl.
  - split; [by exists [FileRead name] | done].
  - split; [exists []; by rewrite app_nil_r | done].
Qed.

Lemma grows_fmap {A B} (g : A → B) (m : M A) : grows m → grows (g <$> m).
Proof. intros Hm. apply grows_bind; [done |]. intros a. apply grows_ret. Qed.

Section whole_program.

Context `{Externals}.

Lemma grows_list_entities regex : grows (list_entities regex).
Proof.
  unfold list_entities. apply grows_bind; [apply grows_requests_get |].
  intros r. case_decide.
  - apply grows_bind; [| intros; apply grows_ret].
    destruct (Py.truthy regex); [apply grows_lift | apply grows_ret].
  - apply grows_bind; [apply grows_emit | intros; apply grows_ret].
Qed.

Lemma grows_build_plan entity_data search_regex replace_regex input_filename :
  grows (build_plan entity_data search_regex replace_regex input_filename).
Proof.
  unfold build_plan. destruct (Py.truthy input_filename).
  - unfold load_plan. apply grows_bind; [apply grows_read_text |].
    intros content. apply grows_bind.
    { intros w. split; [exists []; by rewrite app_nil_r | done]. }
    intros rename_data. case_decide.
    + apply grows_bind; [apply grows_emit | intros; apply grows_ret].
    + apply grows_fmap, grows_lift.
  - apply grows_fmap. unfold plan_rows.
    destruct (Py.truthy replace_regex); [apply grows_lift | apply grows_ret].
Qed.

(** The command line, case by case. *)
Lemma main_search (a : args) w :
  Py.truthy (search_regex a) = true → Py.truthy (input_file a) = false →
  main a w
  = (entity_data ← list_entities (search_regex a);
     if negb (bool_decide (entity_data = [])) then
       process_entities entity_data (search_regex a) (replace_regex a)
                        (output_file a) None
     else print "No entities found matching the search regex.") w.
Proof.
  intros Hs Hi. unfold main. rewrite Hs, Hi. simpl.
  by rewrite andb_false_r.
Qed.

Lemma main_input (a : args) w :
  Py.truthy (search_regex a) = false → Py.truthy (replace_regex a) = false →
  Py.truthy (input_file a) = true →
  main a w
  = process_entities [] None None (output_file a) (input_file a) w.
Proof. intros Hs Hr Hi. unfold main. by rewrite Hs, Hr, Hi. Qed.

Lemma main_message (a : args) w :
  Py.truthy (search_regex a) && Py.truthy (input_file a) = true
  ∨ Py.truthy (search_regex a) = false
    ∧ (Py.truthy (replace_regex a) = true ∨ Py.truthy (input_file a) = false) →
  ∃ line, main a w = (Ok (), emits [Print line] w).
Proof.
  unfold main. intros [-> | [-> [-> | ->]]]; simpl.
  - by eexists.
  - by eexists.
  - destruct (Py.truthy (replace_regex a)); by eexists.
Qed.

(** Every command line falls under one of the three lemmas above. *)
Lemma main_cases (a : args) :
  (Py.truthy (search_regex a) = true ∧ Py.truthy (input_file a) = false)
  ∨ (Py.truthy (search_regex a) = false
     ∧ Py.truthy (replace_regex a) = false
     ∧ Py.truthy (input_file a) = true)
  ∨ (Py.truthy (search_regex a) && Py.truthy (input_file a) = true
     ∨ Py.truthy (search_regex a) = false
       ∧ (Py.truthy (replace_regex a) = true
          ∨ Py.truthy (input_file a) = false)).
Proof.
  destruct (Py.truthy (search_regex a)), (Py.truthy (input_file a)),
    (Py.truthy (replace_regex a)); simpl; tauto.
Qed.

End whole_program.

(** * What the whole program never does *)

Section never.

Context `{Externals}.

Lemma process_entities_no_consent entity_data search_regex replace_regex
    output_file input_filename w :
  no_consent w →
  let run := process_entities entity_data search_regex replace_regex
                              output_file input_filename w in
  List.filter is_ws (trace run.2) = List.filter is_ws (trace w) ∧
  websocket run.2 = websocket w.
Proof.
  intros Hno run. unfold run, process_entities, mbind, M_bind.
  destruct (build_plan entity_data search_regex replace_regex
              input_filename w) as [[[rename_data|]|e] w0] eqn:Hbuild;
    destruct (build_plan_local _ _ _ _ _ _ _ Hbuild) as (Hs0 & Hw0 & Hf0 & _);
    [| done | done].
  rewrite present_shown.
  destruct (shown_local rename_data output_file w0) as (Hs1 & Hw1 & Hf1 & _).
  destruct (requires_confirmation replace_regex input_filename);
    [| simpl; split; congruence].
  unfold mbind, M_bind, input. rewrite Hs1, Hs0.
  destruct (stdin w) as [|answer rest] eqn:Hstdin; simpl.
  - rewrite List.filter_app. simpl. rewrite app_nil_r. split; congruence.
  - rewrite (Hno answer rest Hstdin). simpl.
    rewrite !List.filter_app. simpl. rewrite !app_nil_r. split; congruence.
Qed.

(** X4.  Nothing goes over the control channel without consent: unless
    the first line waiting on standard input is [y] or [yes] (in any
    case), a run of the program, whatever its arguments and however it
    ends, makes no connection, sends and receives no frame. *)
Theorem nothing_sent_without_consent (a : args) (w : world) :
  no_consent w →
  List.filter is_ws (trace (main a w).2) = List.filter is_ws (trace w) ∧
  websocket (main a w).2 = websocket w.
Proof.
  intros Hno. destruct (main_cases a) as [[Hs Hi] | [(Hs & Hr & Hi) | Hmsg]].
  - rewrite main_search by done. unfold mbind, M_bind.
    destruct (only_list_entities (search_regex a) w)
      as (new & Ht & Hnew & Hstdin & Hsock).
    destruct (list_entities (search_regex a) w) as [[entity_data|e] w1];
      simpl in *.
    + assert (List.filter is_ws (trace w1) = List.filter is_ws (trace w))
        as Hws.
      { rewrite Ht, List.filter_app.
        destruct (filter_local_ws new) as [-> _]; [| apply app_nil_r].
        eapply Forall_impl; [exact Hnew |]. apply preview_local. }
      destruct (negb _).
      * destruct (process_entities_no_consent entity_data (search_regex a)
                    (replace_regex a) (output_file a) None w1)
          as [Hws1 Hsock1].
        { intros answer rest Hw1. apply (Hno answer rest). congruence. }
        split; congruence.
      * simpl. rewrite List.filter_app. simpl. rewrite app_nil_r.
        split; congruence.
    + rewrite Ht, List.filter_app.
      destruct (filter_local_ws new) as [-> _]; [| by rewrite app_nil_r].
      eapply Forall_impl; [exact Hnew |]. apply preview_local.
  - rewrite main_input by done.
    by apply process_entities_no_consent.
  - destruct (main_message a w Hmsg) as [line ->]. simpl.
    rewrite List.filter_app. simpl. by rewrite app_nil_r.
Qed.

Lemma process_entities_files entity_data search_regex replace_regex
    output_file input_filename w :
  let run := process_entities entity_data search_regex replace_regex
                              output_file input_filename w in
  (Py.truthy output_file = false → files run.2 = files w) ∧
  (∀ name, output_file ≠ Some name → files run.2 !! name = files w !! name).
Proof.
  intros run. unfold run, process_entities, mbind, M_bind.
  destruct (grows_build_plan entity_data search_regex replace_regex
              input_filename w) as [_ Hf0].
  destruct (build_plan entity_data search_regex replace_regex
              input_filename w) as [[[rename_data|]|e] w0];
    simpl in *; [| by rewrite Hf0 | by rewrite Hf0].
  rewrite present_shown.
  destruct (grows_gate rename_data replace_regex input_filename
              (shown rename_data output_file w0)) as [_ ->].
  unfold shown. destruct (Py.truthy output_file) eqn:Hout; simpl.
  - split; [done |]. intros name Hname.
    rewrite lookup_insert_ne, Hf0; [done |].
    destruct output_file as [filename|]; [| done]. simpl. congruence.
  - by rewrite Hf0.
Qed.

(** X5.  The only file a run can change is the one named by
    [--output-file]: every other file is left as it was, and without that
    option (or with an empty name) no file changes at all, whatever the
    arguments and however the run ends. *)
Theorem only_the_output_file_changes (a : args) (w : world) :
  (Py.truthy (output_file a) = false → files (main a w).2 = files w) ∧
  (∀ name, output_file a ≠ Some name →
           files (main a w).2 !! name = files w !! name).
Proof.
  destruct (main_cases a) as [[Hs Hi] | [(Hs & Hr & Hi) | Hmsg]].
  - rewrite main_search by done. unfold mbind, M_bind.
    destruct (grows_list_entities (search_regex a) w) as [_ Hf].
    destruct (list_entities (search_regex a) w) as [[entity_data|e] w1];
      simpl in *; [| by rewrite Hf].
    destruct (negb _); [| simpl; by rewrite Hf].
    destruct (process_entities_files entity_data (search_regex a)
                (replace_regex a) (output_file a) None w1) as [Hall Hone].
    split.
    + intros Hout. by rewrite Hall, Hf.
    + intros name Hname. by rewrite Hone, Hf.
  - rewrite main_input by done. apply process_entities_files.
  - by destruct (main_message a w Hmsg) as [line ->].
Qed.

Lemma avoids_update_rows index rename_data :
  avoids is_http (update_rows index rename_data).
Proof.
  revert index. induction rename_data as [|row rest IH]; intros index.
  - apply avoids_ret.
  - simpl. apply avoids_bind; [by apply avoids_ws_send |]. intros _.
    apply avoids_bind; [by apply avoids_emit |]. intros _.
    apply avoids_bind; [by apply avoids_ws_recv |]. intros answer.
    apply avoids_bind; [by apply avoids_emit |]. intros _.
    apply avoids_bind; [| intros _; apply IH].
    unfold report. apply avoids_bind; [apply avoids_lift |]. intros v.
    assert (∀ value key dflt, avoids is_http (get_or value key dflt))
      as Hget.
    { intros [] ??; try apply avoids_raise. apply avoids_ret. }
    apply avoids_bind; [apply Hget |]. intros success.
    destruct (json_truthy success); [by apply avoids_emit |].
    apply avoids_bind; [apply Hget |]. intros error.
    apply avoids_bind; [apply Hget |]. intros message.
    by apply avoids_emit.
Qed.

Lemma avoids_process_entities entity_data search_regex replace_regex
    output_file input_filename :
  avoids is_http
    (process_entities entity_data search_regex replace_regex output_file
                      input_filename).
Proof.
  unfold process_entities. apply avoids_bind.
  - unfold build_plan. destruct (Py.truthy input_filename).
    + unfold load_plan. apply avoids_bind; [by apply avoids_read_text |].
      intros content. apply avoids_bind; [by intros w |].
      intros rename_data. case_decide.
      * apply avoids_bind; [by apply avoids_emit | intros; apply avoids_ret].
      * apply avoids_fmap, avoids_lift.
    + apply avoids_fmap. unfold plan_rows.
      destruct (Py.truthy replace_regex);
        [apply avoids_lift | apply avoids_ret].
  - intros [rename_data|]; [| apply avoids_ret].
    unfold present. apply avoids_bind; [apply avoids_lift |]. intros aligned.
    apply avoids_bind; [by apply avoids_emit |]. intros _.
    apply avoids_bind.
    { destruct (Py.truthy output_file); [| apply avoids_ret].
      unfold write_to_csv.
      apply avoids_bind; [by apply avoids_write_text |]. intros _.
      by apply avoids_emit. }
    intros _. destruct (_ && _); [apply avoids_ret |].
    apply avoids_bind; [by apply avoids_input |]. intros answer.
    destruct (negb _); [by apply avoids_emit |].
    unfold rename_entities. apply avoids_with_connection; [done | done |].
    apply avoids_bind; [by apply avoids_ws_recv |]. intros ?.
    apply avoids_bind; [by apply avoids_emit |]. intros _.
    apply avoids_bind; [by apply avoids_ws_send |]. intros _.
    apply avoids_bind; [by apply avoids_emit |]. intros _.
    apply avoids_bind; [by apply avoids_ws_recv |]. intros ?.
    apply avoids_bind; [by apply avoids_emit |]. intros _.
    apply avoids_update_rows.
Qed.

(** X6.  Without a (non-empty) search pattern the program never calls
    the hub's listing endpoint: a run from an input file talks to the hub
    over the control channel only. *)
Theorem no_listing_without_search (a : args) (w : world) :
  Py.truthy (search_regex a) = false →
  List.filter is_http (trace (main a w).2) = List.filter is_http (trace w).
Proof.
  intros Hs.
  destruct (Py.truthy (input_file a)) eqn:Hi;
    destruct (Py.truthy (replace_regex a)) eqn:Hr.
  - destruct (main_message a w) as [line ->]; [tauto |].
    simpl. rewrite List.filter_app. simpl. apply app_nil_r.
  - rewrite main_input by done. apply avoids_process_entities.
  - destruct (main_message a w) as [line ->]; [tauto |].
    simpl. rewrite List.filter_app. simpl. apply app_nil_r.
  - destruct (main_message a w) as [line ->]; [tauto |].
    simpl. rewrite List.filter_app. simpl. apply app_nil_r.
Qed.

End never.

(** * The Applier when the hub fails *)

Section applier_failures.

Context `{Externals}.

Lemma report_bad row answer w :
  answer_ok answer = false →
  ∃ e, (e = JSONDecodeError ∨ e = AttributeError) ∧
       report row answer w = (Raise e, w).
Proof.
  unfold answer_ok, report, mbind, M_bind, lift.
  destruct (json_loads answer) as [[| | | | |members]|]; simpl;
    try (intros _; eexists; split; [| reflexivity]; tauto).
  destruct (dict_get members "success") as [success|]; simpl.
  - destruct (json_truthy success); simpl; [done |].
    destruct (dict_get members "error") as [[| | | | |error]|]; simpl;
      try done; intros _; eexists; (split; [| reflexivity]); tauto.
  - destruct (dict_get members "error") as [[| | | | |error]|]; simpl;
      try done; intros _; eexists; (split; [| reflexivity]); tauto.
Qed.

(** The loop over the rows that are answered, then the rest. *)
Lemma update_rows_app done : ∀ index rest answers more w,
  length answers = length done →
  Forall (λ a, answer_ok a = true) answers →
  websocket w = Some (answers ++ more) →
  update_rows index (done ++ rest) w
  = update_rows (index + Z.of_nat (length done)) rest
      (World (stdin w) (files w) (rest_api w) (Some more)
             (trace w ++ update_events index done answers)).
Proof.
  induction done as [|row done IH]; intros index rest answers more w Hlen Hok Hw.
  - destruct answers; [| done]. simpl in *.
    rewrite app_nil_r, Z.add_0_r. destruct w. simpl in *. by subst.
  - destruct answers as [|answer answers]; [done |].
    inversion Hok as [|? ? Hanswer Hrest]; subst.
    simpl in Hlen. injection Hlen as Hlen.
    cbn [app update_rows update_events].
    unfold mbind, M_bind, ws_send, print, emit, ws_recv, log. simpl.
    rewrite Hw. simpl. rewrite (report_ok _ _ _ Hanswer). simpl.
    rewrite (IH (index + 1)%Z rest answers more) by done. simpl.
    rewrite <- !app_assoc. simpl.
    by replace (index + 1 + Z.of_nat (length done))%Z
      with (index + Z.pos (Pos.of_succ_nat (length done)))%Z by lia.
Qed.

Lemma handshake_run {A} (body : M A) greeting auth_result frames w :
  websocket w = Some (greeting :: auth_result :: frames) →
  with_connection ha_url (
    auth_request ← ws_recv;
    print ("<<< " +:+ auth_request);;
    ws_send auth_msg;;
    print (">>> " +:+ auth_msg);;
    auth_result ← ws_recv;
    print ("<<< " +:+ auth_result);;
    body) w
  = let (r, w') :=
      body (World (stdin w) (files w) (rest_api w) (Some frames)
              (trace w ++ [WsConnect ha_url;
                           WsRecv greeting; Print ("<<< " +:+ greeting);
                           WsSend auth_msg; Print (">>> " +:+ auth_msg);
                           WsRecv auth_result;
                           Print ("<<< " +:+ auth_result)])) in
    (r, log WsClose w').
Proof.
  intros Hw. unfold with_connection. rewrite Hw.
  unfold mbind, M_bind, ws_send, print, emit, ws_recv, log. simpl.
  rewrite Hw. simpl. by rewrite <- !app_assoc.
Qed.

(** X7.  When the hub closes the connection after answering the first
    rows of the plan, the run fails with [ConnectionClosed]: the rows
    answered stay applied, at most the request for the next row still
    goes out (here the send itself fails; when the close has not yet
    arrived the frame leaves and the receive fails), the rows after it
    are never sent, and the connection is closed on the way out. *)
Theorem update_stops_when_connection_closes
    (done : list plan_row) (row : plan_row) (later : list plan_row)
    (answers : list string) (greeting auth_result : string) (w : world) :
  length answers = length done →
  Forall (λ a, answer_ok a = true) answers →
  websocket w = Some (greeting :: auth_result :: answers) →
  ∃ new w' last,
    rename_entities (done ++ row :: later) w = (Raise ConnectionClosed, w') ∧
    trace w' = trace w ++ new ∧
    List.filter is_ws new
    = handshake greeting auth_result
      ++ exchange 1 done answers ++ last ++ [WsClose] ∧
    (last = [] ∨
     last = [WsSend (json_dumps (entity_registry_update_msg
                                   (1 + Z.of_nat (length done)) row))]).
Proof.
  intros Hlen Hok Hw. unfold rename_entities.
  fold ha_url. fold auth_msg.
  rewrite (handshake_run _ greeting auth_result answers) by done.
  rewrite (update_rows_app done 1 (row :: later) answers []);
    [| done | done | by rewrite app_nil_r].
  cbn [update_rows].
  unfold mbind, M_bind, ws_send, print, emit, ws_recv, log. simpl.
  eexists _, _, []. split; [reflexivity |]. simpl.
  rewrite <- ?app_assoc. split; [reflexivity |]. split; [| by left].
  rewrite !List.filter_app, update_events_exchange. simpl.
  by rewrite <- ?app_assoc.
Qed.

(** X8.  An answer the loop cannot report on (not JSON, not an object,
    or a failure whose [error] member is not an object) ends the run with
    [JSONDecodeError] or [AttributeError] right after it is received:
    the rows before it stay applied, the rows after it are never sent,
    and the connection is closed on the way out. *)
Theorem update_stops_at_unreadable_answer
    (done : list plan_row) (row : plan_row) (later : list plan_row)
    (answers : list string) (bad : string) (more : list string)
    (greeting auth_result : string) (w : world) :
  length answers = length done →
  Forall (λ a, answer_ok a = true) answers →
  answer_ok bad = false →
  websocket w = Some (greeting :: auth_result :: answers ++ bad :: more) →
  ∃ e new w',
    (e = JSONDecodeError ∨ e = AttributeError) ∧
    rename_entities (done ++ row :: later) w = (Raise e, w') ∧
    trace w' = trace w ++ new ∧ websocket w' = Some more ∧
    List.filter is_ws new
    = handshake greeting auth_result
      ++ exchange 1 done answers
      ++ [WsSend (json_dumps (entity_registry_update_msg
                                (1 + Z.of_nat (length done)) row));
          WsRecv bad;
          WsClose].
Proof.
  intros Hlen Hok Hbad Hw. unfold rename_entities.
  fold ha_url. fold auth_msg.
  rewrite (handshake_run _ greeting auth_result (answers ++ bad :: more))
    by done.
  rewrite (update_rows_app done 1 (row :: later) answers (bad :: more))
    by done.
  cbn [update_rows].
  unfold mbind, M_bind, ws_send, print, emit, ws_recv, log. simpl.
  match goal with
  | |- context [report row bad ?w0] =>
      destruct (report_bad row bad w0 Hbad) as (e & He & ->)
  end.
  exists e. eexists _, _. split; [exact He |].
  split; [reflexivity |]. simpl.
  rewrite <- !app_assoc. split; [reflexivity |]. split; [done |].
  rewrite !List.filter_app, update_events_exchange. simpl.
  by rewrite <- ?app_assoc.
Qed.

End applier_failures.

(** * What the listing leads to *)

Section listing_outcomes.

Context `{Externals}.

Lemma sorted_nil_iff {A} (key : A → string) (l : list A) :
  Py.sorted key l = [] ↔ l = [].
Proof.
  split; [| by intros ->]. intros Hs.
  apply Permutation_nil_r. rewrite <- Hs. symmetry. apply sorted_Permutation.
Qed.

Lemma list_entities_matching (pattern : string) (r : response) (w : world) :
  Py.nonempty pattern = true →
  (∀ id, is_Some (re_search pattern id)) →
  rest_api w = Some r → status_code r = 200%Z →
  list_entities (Some pattern) w
  = (Ok (Py.sorted fst (matching pattern (listed r))),
     log (HttpGet api_endpoint) w).
Proof.
  intros Hne Hvalid Hw Hr. unfold list_entities.
  unfold mbind, M_bind, requests_get. rewrite Hw.
  rewrite decide_True by done. fold (listed r). simpl. rewrite Hne.
  unfold lift. by rewrite filter_search_matching.
Qed.

Lemma plan_rows_preview entity_data search_regex replace_regex w :
  Py.truthy replace_regex = false →
  plan_rows entity_data search_regex replace_regex w
  = (Ok (preview_rows entity_data), w).
Proof.
  intros Hr. unfold plan_rows, preview_rows. rewrite Hr.
  unfold mret, M_ret. do 2 f_equal.
  apply list_fmap_ext. by intros i [name id] _.
Qed.

(** X9.  When the hub answers the listing call with a status other than
    200, a search run prints the status and the body of the answer, then
    reports that no entity matched, and returns normally: nothing is
    planned, written, asked or sent, whatever the other options are. *)
Theorem listing_error_reported_as_no_match
    (a : args) (r : response) (w : world) :
  Py.truthy (search_regex a) = true → Py.truthy (input_file a) = false →
  rest_api w = Some r → status_code r ≠ 200%Z →
  main a w
  = (Ok (),
     emits [HttpGet api_endpoint;
            Print ("Error: " +:+ pretty (status_code r) +:+ " - " +:+ text r);
            Print "No entities found matching the search regex."] w).
Proof.
  intros Hs Hi Hw Hr. rewrite main_search by done.
  unfold list_entities, mbind, M_bind, requests_get. rewrite Hw.
  rewrite decide_False by done.
  unfold print, emit, log, emits, api_endpoint. simpl.
  by rewrite <- !app_assoc.
Qed.

(** X10.  When the pattern is found in no identifier, a search run calls
    the listing, prints that no entity matched and returns: with an
    output file nothing is exported, with a replace pattern nothing is
    asked. *)
Theorem no_match_ends_run
    (a : args) (pattern : string) (r : response) (w : world) :
  search_regex a = Some pattern → Py.nonempty pattern = true →
  Py.truthy (input_file a) = false →
  (∀ id, is_Some (re_search pattern id)) →
  rest_api w = Some r → status_code r = 200%Z →
  matching pattern (listed r) = [] →
  main a w
  = (Ok (),
     emits [HttpGet api_endpoint;
            Print "No entities found matching the search regex."] w).
Proof.
  intros Hs Hne Hi Hvalid Hw Hr Hnone.
  rewrite main_search by (by rewrite ?Hs).
  unfold mbind, M_bind. rewrite Hs.
  rewrite (list_entities_matching pattern r) by done.
  rewrite Hnone. simpl.
  unfold print, emit, log, emits. simpl. by rewrite <- !app_assoc.
Qed.

(** X11.  A search run with no replace pattern, end to end: one listing
    call, then the table of the matching entities sorted by display name,
    each with an empty new identifier, then the export when an output
    file is given, and nothing else. *)
Theorem preview_run
    (a : args) (pattern : string) (r : response) (w : world) :
  search_regex a = Some pattern → Py.nonempty pattern = true →
  Py.truthy (replace_regex a) = false → Py.truthy (input_file a) = false →
  (∀ id, is_Some (re_search pattern id)) →
  rest_api w = Some r → status_code r = 200%Z →
  matching pattern (listed r) ≠ [] →
  main a w
  = (Ok (),
     shown (preview_rows (Py.sorted fst (matching pattern (listed r))))
           (output_file a) (log (HttpGet api_endpoint) w)).
Proof.
  intros Hs Hne Hrep Hi Hvalid Hw Hr Hsome.
  rewrite main_search by (by rewrite ?Hs).
  unfold mbind, M_bind. rewrite Hs.
  rewrite (list_entities_matching pattern r) by done.
  rewrite bool_decide_eq_false_2 by (by rewrite sorted_nil_iff). simpl.
  unfold process_entities, build_plan, mbind, M_bind. simpl.
  unfold fmap, M_fmap, mbind, M_bind.
  rewrite plan_rows_preview by done. simpl.
  rewrite present_shown. unfold requires_confirmation. by rewrite Hrep.
Qed.

End listing_outcomes.

(** * Input files the Planner cannot use *)

Lemma filter_none {A} (f : A → bool) (l : list A) :
  Forall (λ x, f x = false) l → List.filter f l = [].
Proof. induction 1 as [|x l Hx _ IH]; simpl; [done |]. by rewrite Hx. Qed.

Lemma dict_row_missing (key : string) (fieldnames row : list string) :
  key ∉ fieldnames → Csv.dict_row fieldnames row !! key = None.
Proof.
  intros Hkey. unfold Csv.dict_row.
  assert (∀ (keys : list string) (d : gmap string (option string)),
            key ∉ keys → d !! key = None →
            foldl (λ d k, <[k := None]> d) d keys !! key = None) as Hdrop.
  { induction keys as [|k keys IH]; intros d Hk Hd; simpl; [done |].
    apply IH.
    - intros Hin. apply Hk. by right.
    - rewrite lookup_insert_ne; [done |]. intros ->. apply Hk. by left. }
  apply Hdrop.
  - intros Hin. apply Hkey. eapply subseteq_drop. exact Hin.
  - assert (∀ (pairs : list (string * string)) (d : gmap string (option string)),
              key ∉ pairs.*1 → d !! key = None →
              foldl (λ d kv, <[kv.1 := Some kv.2]> d) d pairs !! key = None)
      as Hzip.
    { induction pairs as [|[k v] pairs IH]; intros d Hk Hd; simpl; [done |].
      apply IH.
      - intros Hin. apply Hk. by right.
      - rewrite lookup_insert_ne; [done |]. intros ->. apply Hk. by left. }
    apply Hzip; [| done].
    intros ([k v] & -> & Hin)%list_elem_of_fmap. apply Hkey.
    eapply elem_of_zip_l. exact Hin.
Qed.

Lemma read_row_missing (fieldnames row : list string) :
  "Current Entity ID" ∉ fieldnames →
  read_row (Csv.dict_row fieldnames row) = None.
Proof.
  intros Hkey. unfold read_row.
  by rewrite (dict_row_missing "Current Entity ID") by done.
Qed.

Section input_file_runs.

Context `{Externals}.

Lemma main_input_file (a : args) (name : string) w :
  input_file a = Some name → Py.nonempty name = true →
  Py.truthy (search_regex a) = false → Py.truthy (replace_regex a) = false →
  main a w
  = (rename_data ← load_plan name;
     match rename_data with
     | None => mret ()
     | Some rename_data =>
         present rename_data None (output_file a) (Some name)
     end) w.
Proof.
  intros Hi Hne Hs Hr. rewrite main_input by (by rewrite ?Hi).
  unfold process_entities, build_plan. rewrite Hi. simpl. by rewrite Hne.
Qed.

Lemma read_rows_written (crlf : bool) (table : list (list string)) :
  readable table →
  read_rows (Csv.universal_newlines false (csv_text crlf table))
  = match table with
    | [] => Ok []
    | fieldnames :: rows =>
        match mapM read_row
                (Csv.dict_row fieldnames
                 <$> List.filter (λ row, negb (bool_decide (row = []))) rows)
        with
        | None => Raise KeyError
        | Some rename_data => Ok rename_data
        end
    end.
Proof.
  intros [Hcr Hfits]. unfold read_rows, Csv.DictReader, csv_text.
  destruct crlf.
  - rewrite CsvFacts.write_read by done. by destruct table.
  - rewrite CsvFacts.unix_read by done. by destruct table.
Qed.

(** X12.  An input file that does not exist ends the run with
    [FileNotFoundError] before anything is printed, asked or sent. *)
Theorem missing_input_file_raises (a : args) (name : string) (w : world) :
  input_file a = Some name → Py.nonempty name = true →
  Py.truthy (search_regex a) = false → Py.truthy (replace_regex a) = false →
  files w !! name = None →
  main a w = (Raise FileNotFoundError, w).
Proof.
  intros Hi Hne Hs Hr Hfile. rewrite (main_input_file a name) by done.
  unfold load_plan, mbind, M_bind, read_text. by rewrite Hfile.
Qed.

(** X13.  An input file with no data row (empty, or a header line alone,
    or a header followed by blank lines), written the way [csv.writer]
    writes, with CR LF or LF line ends, no carriage return in a cell and
    no cell beyond the field limit, makes the run print that no data was
    found and return, whatever the header is: no table, no export, no
    prompt, no connection. *)
Theorem input_without_rows_ends_run
    (a : args) (name : string) (crlf : bool) (table : list (list string))
    (w : world) :
  input_file a = Some name → Py.nonempty name = true →
  Py.truthy (search_regex a) = false → Py.truthy (replace_regex a) = false →
  readable table →
  Forall (λ row, row = []) (tail table) →
  files w !! name = Some (csv_text crlf table) →
  main a w
  = (Ok (),
     emits [FileRead name; Print "No data found in the input file."] w).
Proof.
  intros Hi Hne Hs Hr Hread Hblank Hfile.
  rewrite (main_input_file a name) by done.
  unfold load_plan, mbind, M_bind, read_text. rewrite Hfile.
  rewrite read_rows_written by done.
  assert (match table with
          | [] => Ok []
          | fieldnames :: rows =>
              match mapM read_row
                      (Csv.dict_row fieldnames
                       <$> List.filter (λ row, negb (bool_decide (row = [])))
                             rows)
              with
              | None => Raise KeyError
              | Some rename_data => Ok rename_data
              end
          end = Ok []) as ->.
  { destruct table as [|fieldnames rows]; [done |]. simpl in Hblank.
    rewrite filter_none; [done |].
    eapply Forall_impl; [exact Hblank |]. by intros row ->. }
  rewrite decide_True by done.
  unfold print, emit, log, emits. simpl. by rewrite <- !app_assoc.
Qed.

(** X14.  An input file, written the way [csv.writer] writes, with CR LF
    or LF line ends, no carriage return in a cell and no cell beyond the
    field limit, whose header has no [Current Entity ID] column and
    which has at least one non-blank data row ends the run with
    [KeyError] right after the file is read: nothing is printed, asked or
    sent. *)
Theorem input_without_id_column_raises
    (a : args) (name : string) (crlf : bool) (fieldnames : list string)
    (rows : list (list string)) (w : world) :
  input_file a = Some name → Py.nonempty name = true →
  Py.truthy (search_regex a) = false → Py.truthy (replace_regex a) = false →
  readable (fieldnames :: rows) →
  "Current Entity ID" ∉ fieldnames →
  Exists (λ row, row ≠ []) rows →
  files w !! name = Some (csv_text crlf (fieldnames :: rows)) →
  main a w = (Raise KeyError, log (FileRead name) w).
Proof.
  intros Hi Hne Hs Hr Hread Hkey Hrow Hfile.
  rewrite (main_input_file a name) by done.
  unfold load_plan, mbind, M_bind, read_text. rewrite Hfile.
  rewrite read_rows_written by done.
  assert (mapM read_row
            (Csv.dict_row fieldnames
             <$> List.filter (λ row, negb (bool_decide (row = []))) rows)
          = None) as ->; [| done].
  clear Hread Hfile.
  induction Hrow as [row rows Hrow | row rows _ IH].
  - simpl. rewrite bool_decide_eq_false_2 by done. simpl.
    by rewrite read_row_missing.
  - simpl. destruct (negb (bool_decide (row = []))); simpl; [| exact IH].
    by rewrite read_row_missing.
Qed.

(** X15.  Only the identifier column is needed: from a file with that
    column alone (written the way [csv.writer] writes, with CR LF or LF
    line ends, no carriage return in an identifier and none beyond the
    field limit) the plan has each identifier with an empty display name
    and an empty new identifier. *)
Theorem missing_columns_default_to_empty
    (name : string) (crlf : bool) (ids : list string) (w : world) :
  ids ≠ [] → Forall Csv.cr_free ids → Forall Csv.fits ids →
  files w !! name = Some (csv_text crlf (id_column ids)) →
  load_plan name w
  = (Ok (Some ((λ id, ("", id, "")) <$> ids)), log (FileRead name) w).
Proof.
  intros Hids Hcr Hfits Hfile.
  unfold load_plan, mbind, M_bind, read_text. rewrite Hfile.
  rewrite read_rows_written.
  2:{ split.
      - constructor; [by repeat constructor |].
        apply Forall_fmap. eapply Forall_impl; [exact Hcr |].
        intros id Hid. by repeat constructor.
      - constructor; [repeat constructor; by vm_compute |].
        apply Forall_fmap. eapply Forall_impl; [exact Hfits |].
        intros id Hid. by repeat constructor. }
  unfold id_column.
  rewrite filter_all
    by (by intros row (id & -> & _)%list_elem_of_fmap).
  assert (mapM read_row
            (Csv.dict_row ["Current Entity ID"] <$> ((λ id, [id]) <$> ids))
          = Some ((λ id, (Some "", Some id, Some "")) <$> ids)) as ->.
  { apply mapM_Some. rewrite <- list_fmap_compose.
    apply Forall2_fmap, Forall_Forall2_diag, Forall_forall.
    by intros id _. }
  rewrite decide_False by (by destruct ids).
  unfold fmap at 1, M_fmap, mbind, M_bind, lift.
  assert (mapM str_row ((λ id, (Some "", Some id, Some "")) <$> ids)
          = Some ((λ id, ("", id, "")) <$> ids)) as ->; [| done].
  apply mapM_Some, Forall2_fmap, Forall_Forall2_diag, Forall_forall.
  by intros id _.
Qed.

(** X20.  An input file whose first cell runs, unquoted, beyond the field
    limit of the csv reader (131072 characters) ends the run with
    [_csv.Error] right after the file is opened, whatever follows in the
    file: nothing is printed, asked or sent. *)
Theorem oversized_cell_is_refused
    (a : args) (name : string) (u : string) (c : ascii) (t : string)
    (w : world) :
  input_file a = Some name → Py.nonempty name = true →
  Py.truthy (search_regex a) = false → Py.truthy (replace_regex a) = false →
  Csv.has_special u = false → Csv.special c = false →
  Z.of_nat (String.length u) = Csv.field_limit →
  files w !! name = Some (u +:+ String c t) →
  main a w = (Raise CsvError, log (FileRead name) w).
Proof.
  intros Hi Hne Hs Hr Hu Hc Hlen Hfile.
  rewrite (main_input_file a name) by done.
  unfold load_plan, mbind, M_bind, read_text. rewrite Hfile.
  assert (read_rows (Csv.universal_newlines false (u +:+ String c t))
          = Raise CsvError) as ->; [| done].
  destruct (CsvFacts.special_false c Hc) as (Hd & Hq & Hlf & Hnl).
  assert (c ≠ Py.CR) as Hcr.
  { intros ->. by vm_compute in Hnl. }
  rewrite CsvFacts.universal_newlines_cr_free
    by (by apply CsvFacts.plain_cr_free).
  simpl. rewrite !decide_False by done.
  unfold read_rows, Csv.DictReader, Csv.reader_rows.
  rewrite CsvFacts.read_records_feed_app.
  rewrite CsvFacts.feed_plain; [| done | by left | simpl; lia].
  rewrite CsvFacts.feed_char by done.
  assert (Py.nonempty u = true) as ->.
  { destruct u; [by vm_compute in Hlen | done]. }
  unfold Csv.process_char. simpl. rewrite Hnl.
  rewrite decide_False by done.
  unfold Csv.add_char. simpl. by rewrite decide_True by lia.
Qed.

End input_file_runs.

(** * Whole runs *)

Section whole_runs.

Context `{Externals}.

Lemma substitute_planned pattern replacement entity_data :
  (∀ id, is_Some (re_sub pattern replacement id)) →
  substitute (Some pattern) replacement entity_data
  = Some (planned pattern replacement entity_data).
Proof.
  intros Hvalid. induction entity_data as [|[name id] l IH]; [done |].
  destruct (Hvalid id) as [new Hnew].
  cbn [substitute]. rewrite IH. unfold planned. cbn [fmap list_fmap].
  simpl. by rewrite Hnew.
Qed.

Lemma confirmed_run rename_data replace_regex output_file input_filename
    answer rest answers greeting auth_result more w :
  requires_confirmation replace_regex input_filename = true →
  stdin w = answer :: rest → affirmative answer = true →
  websocket w = Some (greeting :: auth_result :: answers ++ more) →
  length answers = length rename_data →
  Forall (λ a, answer_ok a = true) answers →
  present rename_data replace_regex output_file input_filename w
  = (Ok (),
     applied rename_data answers greeting auth_result more
             (answered (shown rename_data output_file w))).
Proof.
  intros Hgate Hstdin Hyes Hsock Hlen Hok.
  destruct (shown_local rename_data output_file w) as (Hs1 & Hw1 & _).
  rewrite present_shown, Hgate.
  rewrite (bind_ok _ _ _ _ _ (input_answered _ answer rest
                                ltac:(by rewrite Hs1))).
  rewrite Hyes.
  rewrite (rename_entities_run rename_data answers greeting auth_result more)
    by (simpl; congruence).
  done.
Qed.

(** X16.  A search-and-replace run that the operator confirms, on a hub
    that answers every request, end to end: one listing call; the plan is
    the matching records sorted by display name, each with what [re.sub]
    makes of its identifier; the table is shown (and exported with an
    output file); one line is read at the prompt; then the Applier goes
    through exactly the rows of the plan, in that order, and the run
    returns normally. *)
Theorem search_and_replace_run
    (a : args) (pattern replacement : string) (r : response)
    (answer : string) (rest : list string)
    (greeting auth_result : string) (answers more : list string)
    (w : world) :
  search_regex a = Some pattern → Py.nonempty pattern = true →
  replace_regex a = Some replacement → Py.nonempty replacement = true →
  Py.truthy (input_file a) = false →
  (∀ id, is_Some (re_search pattern id)) →
  (∀ id, is_Some (re_sub pattern replacement id)) →
  rest_api w = Some r → status_code r = 200%Z →
  matching pattern (listed r) ≠ [] →
  stdin w = answer :: rest → affirmative answer = true →
  websocket w = Some (greeting :: auth_result :: answers ++ more) →
  length answers = length (matching pattern (listed r)) →
  Forall (λ a, answer_ok a = true) answers →
  main a w
  = (Ok (),
     let plan :=
       planned pattern replacement
               (Py.sorted fst (matching pattern (listed r))) in
     applied plan answers greeting auth_result more
             (answered (shown plan (output_file a)
                              (log (HttpGet api_endpoint) w)))).
Proof.
  intros Hs Hne Hrep Hrne Hi Hvalid Hsub Hw Hr Hsome Hstdin Hyes Hsock Hlen Hok.
  rewrite main_search by (by rewrite ?Hs).
  unfold mbind at 1, M_bind at 1. rewrite Hs.
  rewrite (list_entities_matching pattern r) by done.
  rewrite bool_decide_eq_false_2 by (by rewrite sorted_nil_iff). simpl.
  unfold process_entities, build_plan, mbind at 1, M_bind at 1. simpl.
  unfold fmap, M_fmap, mbind at 1, M_bind at 1.
  unfold plan_rows. rewrite Hrep. simpl. rewrite Hrne.
  unfold lift. rewrite substitute_planned by done.
  unfold mret, M_ret.
  apply (confirmed_run _ _ _ _ answer rest); try done.
  - unfold requires_confirmation. simpl. by rewrite Hrne.
  - unfold planned. rewrite length_fmap.
    rewrite Hlen. symmetry. apply Permutation_length, sorted_Permutation.
Qed.

(** X17.  A run from a plan file that holds an export (no carriage
    return in a cell, no cell beyond the field limit of the csv reader,
    at least one row), confirmed by the operator, on a hub that answers
    every request, end to end: the file is read, the table of exactly the
    exported rows is shown, one line is read at the prompt, and the
    Applier goes through exactly those rows in the order of the file; the
    hub is never asked for a listing. *)
Theorem input_file_run
    (a : args) (name : string) (rename_data : list plan_row)
    (answer : string) (rest : list string)
    (greeting auth_result : string) (answers more : list string)
    (w : world) :
  input_file a = Some name → Py.nonempty name = true →
  Py.truthy (search_regex a) = false → Py.truthy (replace_regex a) = false →
  plan_cr_free rename_data → plan_fits rename_data → rename_data ≠ [] →
  files w !! name = Some (export_text rename_data) →
  stdin w = answer :: rest → affirmative answer = true →
  websocket w = Some (greeting :: auth_result :: answers ++ more) →
  length answers = length rename_data →
  Forall (λ a, answer_ok a = true) answers →
  main a w
  = (Ok (),
     applied rename_data answers greeting auth_result more
             (answered (shown rename_data (output_file a)
                              (log (FileRead name) w)))).
Proof.
  intros Hi Hne Hs Hr Hcr Hfits Hsome Hfile Hstdin Hyes Hsock Hlen Hok.
  rewrite (main_input_file a name) by done.
  unfold mbind at 1, M_bind at 1.
  rewrite (load_plan_export rename_data) by done.
  apply (confirmed_run _ _ _ _ answer rest); try done.
Qed.

(** X18.  Exporting to the very file the plan was read from leaves the
    file as it was, whatever the operator answers and however the hub
    behaves, when the file holds an export with no carriage return in a
    cell, no cell beyond the field limit of the csv reader and at least
    one row.  (With a carriage return in a cell the file does change: the
    carriage return is read as a line feed and written back as one.) *)
Theorem reexport_leaves_file_unchanged
    (a : args) (name : string) (rename_data : list plan_row) (w : world) :
  input_file a = Some name → output_file a = Some name →
  Py.nonempty name = true →
  Py.truthy (search_regex a) = false → Py.truthy (replace_regex a) = false →
  plan_cr_free rename_data → plan_fits rename_data → rename_data ≠ [] →
  files w !! name = Some (export_text rename_data) →
  files (main a w).2 = files w.
Proof.
  intros Hi Ho Hne Hs Hr Hcr Hfits Hsome Hfile.
  rewrite (main_input_file a name) by done.
  unfold mbind at 1, M_bind at 1.
  rewrite (load_plan_export rename_data) by done.
  rewrite present_shown.
  match goal with
  | |- files (?m ?w0).2 = _ =>
      destruct (grows_gate rename_data None (Some name) w0) as [_ ->]
  end.
  unfold shown. rewrite Ho. simpl. rewrite Hne. simpl.
  by apply insert_id.
Qed.

(** X19.  When standard input is at its end where the run asks for
    confirmation, the run fails with [EOFError] after the table has been
    shown and the export written; no connection is made. *)
Theorem end_of_input_at_prompt
    (entity_data : list (string * string))
    (search_regex replace_regex output_file input_filename : option string)
    (rename_data : list plan_row) (w w0 : world) :
  requires_confirmation replace_regex input_filename = true →
  build_plan entity_data search_regex replace_regex input_filename w
  = (Ok (Some rename_data), w0) →
  stdin w = [] →
  process_entities entity_data search_regex replace_regex output_file
                   input_filename w
  = (Raise EOFError, log (Input prompt) (shown rename_data output_file w0))
  ∧ List.filter is_ws (trace (shown rename_data output_file w0))
    = List.filter is_ws (trace w).
Proof.
  intros Hgate Hbuild Hstdin.
  destruct (build_plan_local _ _ _ _ _ _ _ Hbuild) as (Hs0 & Hw0 & Hf0 & _).
  destruct (shown_local rename_data output_file w0) as (Hs1 & _ & Hf1 & _).
  split; [| congruence].
  unfold process_entities. rewrite (bind_ok _ _ _ _ _ Hbuild).
  rewrite present_shown, Hgate.
  unfold mbind, M_bind, input. by rewrite Hs1, Hs0, Hstdin.
Qed.

End whole_runs.

(** * The theorems above on examples *)

Lemma has_special_spaces (n : nat) : Csv.has_special (Str.spaces n) = false.
Proof. induction n as [|n IH]; [done |]. simpl. by rewrite IH. Qed.

Section examples.

#[local] Existing Instance Sample.externals.

(** The operator types [no]: nothing goes to the hub. *)
Lemma nothing_sent_without_consent_witness :
  let a := Args None (Some "kitchen_old") (Some "kitchen_new") None in
  let w := Sample.hub ["hello"; "auth_ok"; Sample.accepted] ["no"] in
  List.filter is_ws (trace (main a w).2) = List.filter is_ws (trace w) ∧
  websocket (main a w).2 = websocket w.
Proof.
  intros a w. apply (nothing_sent_without_consent a w).
  intros answer rest Hstdin. simpl in Hstdin.
  injection Hstdin as <- _. reflexivity.
Defined.

(** A run from a plan file makes no listing call. *)
Lemma no_listing_without_search_witness :
  let a := Args (Some "plan.csv") None None None in
  List.filter is_http (trace (main a hub_with_plan_file).2)
  = List.filter is_http (trace hub_with_plan_file).
Proof.
  intros a. apply (no_listing_without_search a hub_with_plan_file).
  reflexivity.
Defined.

(** The hub hangs up after the first of three rows. *)
Lemma update_stops_when_connection_closes_witness :
  let w := Sample.hub ["hello"; "auth_ok"; Sample.accepted] [] in
  ∃ new w' last,
    rename_entities three_rows w = (Raise ConnectionClosed, w') ∧
    trace w' = trace w ++ new ∧
    List.filter is_ws new
    = handshake "hello" "auth_ok"
      ++ exchange 1 [("Kitchen", "light.kitchen_old", "light.kitchen_new")]
                  [Sample.accepted]
      ++ last ++ [WsClose] ∧
    (last = [] ∨
     last = [WsSend (json_dumps (entity_registry_update_msg
                                   2 ("", "switch.fan",
                                      "switch.ceiling_fan")))]).
Proof.
  intros w.
  exact (update_stops_when_connection_closes
           [("Kitchen", "light.kitchen_old", "light.kitchen_new")]
           ("", "switch.fan", "switch.ceiling_fan")
           [("Hall", "light.hall", "")]
           [Sample.accepted] "hello" "auth_ok" w
           eq_refl ltac:(by repeat constructor) eq_refl).
Defined.

(** The hub answers the second of three rows with something that is not
    JSON. *)
Lemma update_stops_at_unreadable_answer_witness :
  let w := Sample.hub ["hello"; "auth_ok"; Sample.accepted; "oops";
                       Sample.accepted] [] in
  ∃ e new w',
    (e = JSONDecodeError ∨ e = AttributeError) ∧
    rename_entities three_rows w = (Raise e, w') ∧
    trace w' = trace w ++ new ∧ websocket w' = Some [Sample.accepted] ∧
    List.filter is_ws new
    = handshake "hello" "auth_ok"
      ++ exchange 1 [("Kitchen", "light.kitchen_old", "light.kitchen_new")]
                  [Sample.accepted]
      ++ [WsSend (json_dumps (entity_registry_update_msg
                                2 ("", "switch.fan", "switch.ceiling_fan")));
          WsRecv "oops";
          WsClose].
Proof.
  intros w.
  exact (update_stops_at_unreadable_answer
           [("Kitchen", "light.kitchen_old", "light.kitchen_new")]
           ("", "switch.fan", "switch.ceiling_fan")
           [("Hall", "light.hall", "")]
           [Sample.accepted] "oops" [Sample.accepted] "hello" "auth_ok" w
           eq_refl ltac:(by repeat constructor) eq_refl eq_refl).
Defined.

(** The hub answers the listing call with 401. *)
Lemma listing_error_reported_as_no_match_witness :
  let a := Args None (Some "kitchen") (Some "den") (Some "plan.csv") in
  main a hub_unauthorized
  = (Ok (),
     emits [HttpGet api_endpoint;
            Print "Error: 401 - 401: Unauthorized";
            Print "No entities found matching the search regex."]
           hub_unauthorized).
Proof.
  intros a.
  exact (listing_error_reported_as_no_match a _ hub_unauthorized
           eq_refl eq_refl eq_refl ltac:(discriminate)).
Defined.

(** No entity of the sample hub has [garage] in its identifier. *)
Lemma no_match_ends_run_witness :
  let a := Args None (Some "garage") (Some "den") (Some "plan.csv") in
  let w := Sample.hub [] ["y"] in
  main a w
  = (Ok (),
     emits [HttpGet api_endpoint;
            Print "No entities found matching the search regex."] w).
Proof.
  intros a w.
  exact (no_match_ends_run a "garage" _ w eq_refl eq_refl eq_refl
           ltac:(intros id; eexists; reflexivity) eq_refl eq_refl eq_refl).
Defined.

(** Two entities of the sample hub have [kitchen] in their identifier. *)
Lemma preview_run_witness :
  let a := Args None (Some "kitchen") None (Some "plan.csv") in
  let w := Sample.hub [] [] in
  main a w
  = (Ok (),
     shown [("Kitchen", "light.kitchen_old", "");
            ("Kitchen temperature", "sensor.kitchen_old_temp", "")]
           (Some "plan.csv") (log (HttpGet api_endpoint) w)).
Proof.
  intros a w.
  exact (preview_run a "kitchen" _ w eq_refl eq_refl eq_refl eq_refl
           ltac:(intros id; eexists; reflexivity) eq_refl eq_refl
           ltac:(discriminate)).
Defined.

(** No file of that name. *)
Lemma missing_input_file_raises_witness :
  let a := Args (Some "plan.csv") None None None in
  let w := Sample.hub [] ["y"] in
  main a w = (Raise FileNotFoundError, w).
Proof.
  intros a w.
  exact (missing_input_file_raises a "plan.csv" w
           eq_refl eq_refl eq_refl eq_refl eq_refl).
Defined.

(** A header line followed by two blank lines, with LF line ends. *)
Lemma input_without_rows_ends_run_witness :
  let a := Args (Some "plan.csv") None None (Some "out.csv") in
  let w := with_file "plan.csv" (csv_text false [header; []; []]) in
  main a w
  = (Ok (),
     emits [FileRead "plan.csv"; Print "No data found in the input file."]
           w).
Proof.
  intros a w.
  exact (input_without_rows_ends_run a "plan.csv" false [header; []; []] w
           eq_refl eq_refl eq_refl eq_refl
           ltac:(split; repeat constructor; by vm_compute)
           ltac:(by repeat constructor)
           eq_refl).
Defined.

(** A file whose identifier column is called [Entity]. *)
Lemma input_without_id_column_raises_witness :
  let a := Args (Some "plan.csv") None None None in
  let table := [["Name"; "Entity"]; []; ["Kitchen"; "light.kitchen"]] in
  let w := with_file "plan.csv" (csv_text true table) in
  main a w = (Raise KeyError, log (FileRead "plan.csv") w).
Proof.
  intros a table w.
  apply (input_without_id_column_raises a "plan.csv" true ["Name"; "Entity"]
           [[]; ["Kitchen"; "light.kitchen"]] w);
    try reflexivity.
  - split; repeat constructor; by vm_compute.
  - intros Hin. apply elem_of_cons in Hin as [Hin | Hin]; [discriminate |].
    apply elem_of_cons in Hin as [Hin | Hin]; [discriminate |].
    by apply elem_of_nil in Hin.
  - right. left. discriminate.
Defined.

(** A file with the identifier column alone, with LF line ends. *)
Lemma missing_columns_default_to_empty_witness :
  let w := with_file "plan.csv"
             (csv_text false (id_column ["light.hall"; "switch.fan"])) in
  load_plan "plan.csv" w
  = (Ok (Some [("", "light.hall", ""); ("", "switch.fan", "")]),
     log (FileRead "plan.csv") w).
Proof.
  intros w.
  exact (missing_columns_default_to_empty "plan.csv" false
           ["light.hall"; "switch.fan"] w
           ltac:(discriminate) ltac:(by repeat constructor)
           ltac:(repeat constructor; by vm_compute) eq_refl).
Defined.

(** Renaming [kitchen_old] to [kitchen_new] on the sample hub, which
    accepts the first update and rejects the second. *)
Lemma search_and_replace_run_witness :
  let a := Args None (Some "kitchen_old") (Some "kitchen_new") None in
  let w := Sample.hub ["hello"; "auth_ok"; Sample.accepted; Sample.rejected]
                      ["Y"] in
  let plan := [("Kitchen", "light.kitchen_old", "light.kitchen_new");
               ("Kitchen temperature", "sensor.kitchen_old_temp",
                "sensor.kitchen_new_temp")] in
  main a w
  = (Ok (),
     applied plan [Sample.accepted; Sample.rejected] "hello" "auth_ok" []
             (answered (shown plan None (log (HttpGet api_endpoint) w)))).
Proof.
  intros a w plan.
  exact (search_and_replace_run a "kitchen_old" "kitchen_new" _ "Y" []
           "hello" "auth_ok" [Sample.accepted; Sample.rejected] [] w
           eq_refl eq_refl eq_refl eq_refl eq_refl
           ltac:(intros id; eexists; reflexivity)
           ltac:(intros id; eexists; reflexivity)
           eq_refl eq_refl ltac:(discriminate) eq_refl eq_refl eq_refl
           eq_refl ltac:(by repeat constructor)).
Defined.

(** Applying the plan file of one row. *)
Lemma input_file_run_witness :
  let a := Args (Some "plan.csv") None None None in
  main a hub_with_plan_file
  = (Ok (),
     applied one_row_plan [Sample.accepted] "hello" "auth_ok" []
             (answered (shown one_row_plan None
                              (log (FileRead "plan.csv")
                                   hub_with_plan_file)))).
Proof.
  intros a.
  exact (input_file_run a "plan.csv" one_row_plan "y" []
           "hello" "auth_ok" [Sample.accepted] [] hub_with_plan_file
           eq_refl eq_refl eq_refl eq_refl
           ltac:(by repeat constructor)
           ltac:(repeat constructor; by vm_compute) ltac:(discriminate)
           eq_refl eq_refl eq_refl eq_refl eq_refl
           ltac:(by repeat constructor)).
Defined.

(** Reading the plan from [plan.csv] and exporting to [plan.csv]. *)
Lemma reexport_leaves_file_unchanged_witness :
  let a := Args (Some "plan.csv") None None (Some "plan.csv") in
  files (main a hub_with_plan_file).2 = files hub_with_plan_file.
Proof.
  intros a.
  exact (reexport_leaves_file_unchanged a "plan.csv" one_row_plan
           hub_with_plan_file
           eq_refl eq_refl eq_refl eq_refl eq_refl
           ltac:(by repeat constructor)
           ltac:(repeat constructor; by vm_compute) ltac:(discriminate)
           eq_refl).
Defined.

(** Nothing can be read where the run asks for confirmation. *)
Lemma end_of_input_at_prompt_witness :
  let w := Sample.hub ["hello"] [] in
  let entity_data := [("Kitchen", "light.kitchen_old")] in
  let plan := [("Kitchen", "light.kitchen_old", "light.kitchen_new")] in
  process_entities entity_data (Some "kitchen_old") (Some "kitchen_new")
                   (Some "plan.csv") None w
  = (Raise EOFError, log (Input prompt) (shown plan (Some "plan.csv") w))
  ∧ List.filter is_ws (trace (shown plan (Some "plan.csv") w))
    = List.filter is_ws (trace w).
Proof.
  intros w entity_data plan.
  exact (end_of_input_at_prompt entity_data (Some "kitchen_old")
           (Some "kitchen_new") (Some "plan.csv") None plan w w
           eq_refl eq_refl eq_refl).
Defined.

(** A first line of 131072 spaces and one more character. *)
Lemma oversized_cell_is_refused_witness :
  let a := Args (Some "plan.csv") None None None in
  let w := with_file "plan.csv"
             (Str.spaces (Z.to_nat Csv.field_limit) +:+ String "x" "") in
  main a w = (Raise CsvError, log (FileRead "plan.csv") w).
Proof.
  intros a w.
  apply (oversized_cell_is_refused a "plan.csv"
           (Str.spaces (Z.to_nat Csv.field_limit)) "x"%char "" w
           eq_refl eq_refl eq_refl eq_refl).
  - apply has_special_spaces.
  - reflexivity.
  - rewrite spaces_length. by apply Z2Nat.id.
  - apply lookup_singleton_eq.
Defined.

End examples.

